(** * Lambert Azimuthal Equal Area (laea): a shallow embedding of
      src/projections/laea.cpp and the properties of its specification.

    A C [double] is a binary64 number: Rocq's primitive [float], whose
    operations are the IEEE 754 ones (round to nearest even, one NaN,
    signed zeros).  The C library's [sin], [cos], [asin], [atan2] and
    [hypot], and the authalic-latitude helper of the library, are external
    collaborators: the transforms are written over an interface that lists
    them, and every theorem holds for every implementation of it.

    A transform call [f(lp, P)] returns a pair and may write the error slot
    of [P]: it is a function to the pair and the instance after the call.
    Setup returns the instance or [nullptr] with the error it ended in.

    Contents: the data model and the four transforms with setup; a sample
    implementation of the collaborators, to evaluate on; the vocabulary of
    the specification; facts of binary64 arithmetic; the theorems on the
    specification's properties; further properties of the code (the life
    of an instance, the ways setup ends, the remaining guards, the mirror
    symmetries). *)

From Stdlib Require Import Bool ZArith List Lia.
From Stdlib Require Import Floats.
Import ListNotations.

Set Warnings "-inexact-float".
Local Open Scope float_scope.

(** ** Data model *)

(** [enum Mode { N_POLE = 0, S_POLE = 1, EQUIT = 2, OBLIQ = 3 }] *)
Inductive Mode : Set := N_POLE | S_POLE | EQUIT | OBLIQ.

Definition Mode_eqb (a b : Mode) : bool :=
  match a, b with
  | N_POLE, N_POLE | S_POLE, S_POLE | EQUIT, EQUIT | OBLIQ, OBLIQ => true
  | _, _ => false
  end.

(** [struct pj_laea_data]; [apa] is a nullable pointer to the coefficients. *)
Record pj_laea_data : Set := mk_laea_data {
  sinb1 : float;
  cosb1 : float;
  xmf : float;
  ymf : float;
  mmf : float;
  qp : float;
  dd : float;
  rq : float;
  apa : option (list float);
  mode : Mode
}.

(** [PJ_LP] and [PJ_XY]: the geodetic and the planar pair. *)
Record PJ_LP : Set := mkLP { lam : float; phi : float }.
Record PJ_XY : Set := mkXY { x : float; y : float }.

(** Modelled from the spec: the error codes are macros of proj.h, which is
    not under src/; the three kinds the projection uses are "Allocation
    Failure", "Invalid Configuration" and "Outside Projection Domain". *)
Inductive proj_err : Set :=
| PROJ_ERR_OTHER
| PROJ_ERR_INVALID_OP_ILLEGAL_ARG_VALUE
| PROJ_ERR_COORD_TRANSFM_OUTSIDE_PROJECTION_DOMAIN.

Abbreviation OUTSIDE := PROJ_ERR_COORD_TRANSFM_OUTSIDE_PROJECTION_DOMAIN.

(** The two function pairs setup can bind to [P->fwd] and [P->inv]. *)
Inductive fwd_binding : Set := bind_laea_e_forward | bind_laea_s_forward.
Inductive inv_binding : Set := bind_laea_e_inverse | bind_laea_s_inverse.

(** The fields of [PJ] (proj_internal.h) that laea.cpp reads or writes:
    the centre latitude, the ellipsoid ([es], [e], [n]), the state block
    [opaque] (a nullable pointer), the bound functions, and the error slot
    that [proj_errno_set] writes ([None] is errno 0). *)
Record PJ : Set := mkPJ {
  phi0 : float;
  es : float;
  e : float;
  n : float;
  opaque : option pj_laea_data;
  has_destructor : bool;
  fwd : option fwd_binding;
  inv : option inv_binding;
  last_errno : option proj_err
}.

(** What the authalic-latitude helper sees of [P]: the ellipsoid. *)
Record ellipsoid : Set := mkEllps { el_es : float; el_e : float; el_n : float }.

Definition ellps (P : PJ) : ellipsoid :=
  {| el_es := es P; el_e := e P; el_n := n P |}.

(** ** Constants *)

(** [#define EPS10 1.e-10] *)
Definition EPS10 : float := 1e-10.

(** Modelled from the spec: M_HALFPI is a macro of proj_internal.h, which is
    not under src/; it is the spec's 90 degrees in radians, the binary64
    number nearest to pi/2. *)
Definition M_HALFPI : float := 1.5707963267948966.

(** Modelled from the spec: M_FORTPI is a macro of proj_internal.h, which is
    not under src/; it is the spec's 45 degrees in radians, the binary64
    number nearest to pi/4. *)
Definition M_FORTPI : float := 0.7853981633974483.

(** ** External collaborators *)

(** The functions of <math.h> the file calls ([sqrt] and [fabs] are the
    primitive IEEE operations [sqrt] and [abs]). *)
Class Libm : Set := {
  sin : float -> float;
  cos : float -> float;
  asin : float -> float;
  atan2 : float -> float -> float;
  hypot : float -> float -> float
}.

(** The authalic-latitude helper and the allocator.  The helper is code of
    the library that is not under src/: it is taken as a parameter, with the
    argument lists of the calls in laea.cpp (the spec's
    [authalic_latitude(lat, sin(lat), cos(lat), coeffs, ellipsoid, qp)]
    and its siblings).  [calloc_succeeds] tells whether
    [calloc(1, sizeof(struct pj_laea_data))] returns a block. *)
Class Collaborators : Set := {
  pj_authalic_lat :
    float -> float -> float -> option (list float) -> ellipsoid -> float -> float;
  pj_authalic_lat_inverse :
    float -> option (list float) -> ellipsoid -> float -> float;
  pj_authalic_lat_q : float -> ellipsoid -> float;
  pj_authalic_lat_compute_coeffs : float -> option (list float);
  calloc_succeeds : bool
}.

(** ** Field updates *)

Definition set_x (v : float) (xy : PJ_XY) : PJ_XY := {| x := v; y := y xy |}.
Definition set_y (v : float) (xy : PJ_XY) : PJ_XY := {| x := x xy; y := v |}.
Definition set_lam (v : float) (lp : PJ_LP) : PJ_LP := {| lam := v; phi := phi lp |}.
Definition set_phi (v : float) (lp : PJ_LP) : PJ_LP := {| lam := lam lp; phi := v |}.

Definition set_sinb1 (v : float) (Q : pj_laea_data) : pj_laea_data :=
  mk_laea_data v (cosb1 Q) (xmf Q) (ymf Q) (mmf Q) (qp Q) (dd Q) (rq Q) (apa Q) (mode Q).
Definition set_cosb1 (v : float) (Q : pj_laea_data) : pj_laea_data :=
  mk_laea_data (sinb1 Q) v (xmf Q) (ymf Q) (mmf Q) (qp Q) (dd Q) (rq Q) (apa Q) (mode Q).
Definition set_xmf (v : float) (Q : pj_laea_data) : pj_laea_data :=
  mk_laea_data (sinb1 Q) (cosb1 Q) v (ymf Q) (mmf Q) (qp Q) (dd Q) (rq Q) (apa Q) (mode Q).
Definition set_ymf (v : float) (Q : pj_laea_data) : pj_laea_data :=
  mk_laea_data (sinb1 Q) (cosb1 Q) (xmf Q) v (mmf Q) (qp Q) (dd Q) (rq Q) (apa Q) (mode Q).
Definition set_mmf (v : float) (Q : pj_laea_data) : pj_laea_data :=
  mk_laea_data (sinb1 Q) (cosb1 Q) (xmf Q) (ymf Q) v (qp Q) (dd Q) (rq Q) (apa Q) (mode Q).
Definition set_qp (v : float) (Q : pj_laea_data) : pj_laea_data :=
  mk_laea_data (sinb1 Q) (cosb1 Q) (xmf Q) (ymf Q) (mmf Q) v (dd Q) (rq Q) (apa Q) (mode Q).
Definition set_dd (v : float) (Q : pj_laea_data) : pj_laea_data :=
  mk_laea_data (sinb1 Q) (cosb1 Q) (xmf Q) (ymf Q) (mmf Q) (qp Q) v (rq Q) (apa Q) (mode Q).
Definition set_rq (v : float) (Q : pj_laea_data) : pj_laea_data :=
  mk_laea_data (sinb1 Q) (cosb1 Q) (xmf Q) (ymf Q) (mmf Q) (qp Q) (dd Q) v (apa Q) (mode Q).
Definition set_apa (v : option (list float)) (Q : pj_laea_data) : pj_laea_data :=
  mk_laea_data (sinb1 Q) (cosb1 Q) (xmf Q) (ymf Q) (mmf Q) (qp Q) (dd Q) (rq Q) v (mode Q).
Definition set_mode (v : Mode) (Q : pj_laea_data) : pj_laea_data :=
  mk_laea_data (sinb1 Q) (cosb1 Q) (xmf Q) (ymf Q) (mmf Q) (qp Q) (dd Q) (rq Q) (apa Q) v.

Definition set_e (v : float) (P : PJ) : PJ :=
  mkPJ (phi0 P) (es P) v (n P) (opaque P) (has_destructor P) (fwd P) (inv P) (last_errno P).
Definition set_opaque (v : option pj_laea_data) (P : PJ) : PJ :=
  mkPJ (phi0 P) (es P) (e P) (n P) v (has_destructor P) (fwd P) (inv P) (last_errno P).
Definition set_destructor (P : PJ) : PJ :=
  mkPJ (phi0 P) (es P) (e P) (n P) (opaque P) true (fwd P) (inv P) (last_errno P).
Definition set_fwd (v : fwd_binding) (P : PJ) : PJ :=
  mkPJ (phi0 P) (es P) (e P) (n P) (opaque P) (has_destructor P) (Some v) (inv P) (last_errno P).
Definition set_inv (v : inv_binding) (P : PJ) : PJ :=
  mkPJ (phi0 P) (es P) (e P) (n P) (opaque P) (has_destructor P) (fwd P) (Some v) (last_errno P).

(** Modelled from the spec: [proj_errno_set] is declared in proj_internal.h,
    which is not under src/; it writes the error code into the error slot
    associated with the instance. *)
Definition proj_errno_set (P : PJ) (err : proj_err) : PJ :=
  mkPJ (phi0 P) (es P) (e P) (n P) (opaque P) (has_destructor P) (fwd P) (inv P) (Some err).

(** The block [calloc] returns: every byte zero, so every [double] is [+0],
    [apa] is null and [mode] is the enumerator 0. *)
Definition calloc_pj_laea_data : pj_laea_data :=
  mk_laea_data 0 0 0 0 0 0 0 0 None N_POLE.

(** The result of setup and of the destructors, a [PJ *]: the instance, or
    [nullptr] together with the error the destructor recorded, if any. *)
Inductive PJ_result : Set :=
| PJ_ok (P : PJ)
| PJ_null (errlev : option proj_err).

(** Modelled from the spec: [pj_default_destructor] is code of the library
    that is not under src/; it records [errlev], releases the instance and
    returns [nullptr] ("fatal at setup, instance is not created"). *)
Definition pj_default_destructor (P : PJ) (errlev : proj_err) : PJ_result :=
  PJ_null (Some errlev).

(** ** The transforms and the setup routine *)

Section Laea.

Context {L : Libm} {C : Collaborators}.

(** The first [switch (Q->mode)] of [laea_e_forward]: the guard quantity
    [b] and the updated [q], from the values computed before it. *)
Definition laea_e_forward_b (lp : PJ_LP) (Q : pj_laea_data)
    (sinb cosb coslam q : float) : float * float :=
  match mode Q with
  | OBLIQ => (1 + sinb1 Q * sinb + cosb1 Q * cosb * coslam, q)
  | EQUIT => (1 + cosb * coslam, q)
  | N_POLE => (M_HALFPI + phi lp, qp Q - q)
  | S_POLE => (phi lp - M_HALFPI, qp Q + q)
  end.

(** [static PJ_XY laea_e_forward(PJ_LP lp, PJ *P)]: ellipsoidal, forward.
    The result is the returned pair and [P] with its error slot. *)
Definition laea_e_forward (lp : PJ_LP) (P : PJ) : option (PJ_XY * PJ) :=
  match opaque P with
  | None => None
  | Some Q =>
    let xy := mkXY 0 0 in
    let coslam := cos (lam lp) in
    let sinlam := sin (lam lp) in
    let sinphi := sin (phi lp) in
    let cosphi := cos (phi lp) in
    let xi := pj_authalic_lat (phi lp) sinphi cosphi (apa Q) (ellps P) (qp Q) in
    let q := sin xi * qp Q in
    let sinb := match mode Q with OBLIQ | EQUIT => sin xi | _ => 0 end in
    let cosb := match mode Q with OBLIQ | EQUIT => cos xi | _ => 0 end in
    let '(b, q) := laea_e_forward_b lp Q sinb cosb coslam q in
    if abs b <? EPS10 then
      Some (xy, proj_errno_set P PROJ_ERR_COORD_TRANSFM_OUTSIDE_PROJECTION_DOMAIN)
    else
      let eqcon (b : float) (xy : PJ_XY) :=
        Some (set_x (xmf Q * b * cosb * sinlam) xy, P) in
      match mode Q with
      | OBLIQ =>
        let b := sqrt (2 / b) in
        let xy := set_y (ymf Q * b * (cosb1 Q * sinb - sinb1 Q * cosb * coslam)) xy in
        eqcon b xy
      | EQUIT =>
        let b := sqrt (2 / (1 + cosb * coslam)) in
        let xy := set_y (b * sinb * ymf Q) xy in
        eqcon b xy
      | N_POLE | S_POLE =>
        if 1e-15 <=? q then
          let b := sqrt q in
          let xy := set_x (b * sinlam) xy in
          let xy := set_y (coslam * (match mode Q with S_POLE => b | _ => - b end)) xy in
          Some (xy, P)
        else
          Some (set_x 0 (set_y 0 xy), P)
      end
  end.

(** [static PJ_XY laea_s_forward(PJ_LP lp, PJ *P)]: spheroidal, forward.
    [oblcon] is the code at the label of that name; [s_pole] is the body of
    [case S_POLE], which [case N_POLE] falls into with [coslam] negated. *)
Definition laea_s_forward (lp : PJ_LP) (P : PJ) : option (PJ_XY * PJ) :=
  match opaque P with
  | None => None
  | Some Q =>
    let xy := mkXY 0 0 in
    let sinphi := sin (phi lp) in
    let cosphi := cos (phi lp) in
    let coslam := cos (lam lp) in
    let oblcon (xy : PJ_XY) :=
      if y xy <=? EPS10 then
        Some (xy, proj_errno_set P PROJ_ERR_COORD_TRANSFM_OUTSIDE_PROJECTION_DOMAIN)
      else
        let xy := set_y (sqrt (2 / y xy)) xy in
        let xy := set_x (y xy * cosphi * sin (lam lp)) xy in
        let xy := set_y (y xy * (match mode Q with
                                 | EQUIT => sinphi
                                 | _ => cosb1 Q * sinphi - sinb1 Q * cosphi * coslam
                                 end)) xy in
        Some (xy, P) in
    let s_pole (coslam : float) :=
      if abs (phi lp + phi0 P) <? EPS10 then
        Some (xy, proj_errno_set P PROJ_ERR_COORD_TRANSFM_OUTSIDE_PROJECTION_DOMAIN)
      else
        let xy := set_y (M_FORTPI - phi lp * 0.5) xy in
        let xy := set_y (2 * (match mode Q with
                              | S_POLE => cos (y xy)
                              | _ => sin (y xy)
                              end)) xy in
        let xy := set_x (y xy * sin (lam lp)) xy in
        let xy := set_y (y xy * coslam) xy in
        Some (xy, P) in
    match mode Q with
    | EQUIT => oblcon (set_y (1 + cosphi * coslam) xy)
    | OBLIQ => oblcon (set_y (1 + sinb1 Q * sinphi + cosb1 Q * cosphi * coslam) xy)
    | N_POLE => s_pole (- coslam)
    | S_POLE => s_pole coslam
    end
  end.

(** [static PJ_LP laea_e_inverse(PJ_XY xy, PJ *P)]: ellipsoidal, inverse.
    [finish] is the code after the [switch]; [s_pole] is the body of
    [case S_POLE], which [case N_POLE] falls into with [xy.y] negated. *)
Definition laea_e_inverse (xy : PJ_XY) (P : PJ) : option (PJ_LP * PJ) :=
  match opaque P with
  | None => None
  | Some Q =>
    let lp := mkLP 0 0 in
    let finish (xy : PJ_XY) (ab : float) :=
      let lp := set_lam (atan2 (x xy) (y xy)) lp in
      let lp := set_phi (pj_authalic_lat_inverse (asin ab) (apa Q) (ellps P) (qp Q)) lp in
      Some (lp, P) in
    let s_pole (xy : PJ_XY) :=
      let q := x xy * x xy + y xy * y xy in
      if q =? 0 then
        Some (set_phi (phi0 P) (set_lam 0 lp), P)
      else
        let ab := 1 - q / qp Q in
        let ab := match mode Q with S_POLE => - ab | _ => ab end in
        finish xy ab in
    match mode Q with
    | EQUIT | OBLIQ =>
      let xy := set_x (x xy / dd Q) xy in
      let xy := set_y (y xy * dd Q) xy in
      let rho := hypot (x xy) (y xy) in
      if rho <? EPS10 then
        Some (set_phi (phi0 P) (set_lam 0 lp), P)
      else
        let asin_argument := 0.5 * rho / rq Q in
        if 1 <? asin_argument then
          Some (lp, proj_errno_set P PROJ_ERR_COORD_TRANSFM_OUTSIDE_PROJECTION_DOMAIN)
        else
          let sCe := 2 * asin asin_argument in
          let cCe := cos sCe in
          let sCe := sin sCe in
          let xy := set_x (x xy * sCe) xy in
          match mode Q with
          | OBLIQ =>
            let ab := cCe * sinb1 Q + y xy * sCe * cosb1 Q / rho in
            let xy := set_y (rho * cosb1 Q * cCe - y xy * sinb1 Q * sCe) xy in
            finish xy ab
          | _ =>
            let ab := y xy * sCe / rho in
            let xy := set_y (rho * cCe) xy in
            finish xy ab
          end
    | N_POLE => s_pole (set_y (- y xy) xy)
    | S_POLE => s_pole xy
    end
  end.

(** [static PJ_LP laea_s_inverse(PJ_XY xy, PJ *P)]: spheroidal, inverse. *)
Definition laea_s_inverse (xy : PJ_XY) (P : PJ) : option (PJ_LP * PJ) :=
  match opaque P with
  | None => None
  | Some Q =>
    let lp := mkLP 0 0 in
    let rh := hypot (x xy) (y xy) in
    let lp := set_phi (rh * 0.5) lp in
    if 1 <? phi lp then
      Some (lp, proj_errno_set P PROJ_ERR_COORD_TRANSFM_OUTSIDE_PROJECTION_DOMAIN)
    else
      let lp := set_phi (2 * asin (phi lp)) lp in
      let sinz := match mode Q with OBLIQ | EQUIT => sin (phi lp) | _ => 0 end in
      let cosz := match mode Q with OBLIQ | EQUIT => cos (phi lp) | _ => 0 end in
      let '(xy, lp) :=
        match mode Q with
        | EQUIT =>
          let lp := set_phi (if abs rh <=? EPS10 then 0
                             else asin (y xy * sinz / rh)) lp in
          let xy := set_x (x xy * sinz) xy in
          let xy := set_y (cosz * rh) xy in
          (xy, lp)
        | OBLIQ =>
          let lp := set_phi (if abs rh <=? EPS10 then phi0 P
                             else asin (cosz * sinb1 Q + y xy * sinz * cosb1 Q / rh)) lp in
          let xy := set_x (x xy * (sinz * cosb1 Q)) xy in
          let xy := set_y ((cosz - sin (phi lp) * sinb1 Q) * rh) xy in
          (xy, lp)
        | N_POLE =>
          let xy := set_y (- y xy) xy in
          let lp := set_phi (M_HALFPI - phi lp) lp in
          (xy, lp)
        | S_POLE =>
          let lp := set_phi (phi lp - M_HALFPI) lp in
          (xy, lp)
        end in
      let lp := set_lam (if (y xy =? 0) && (Mode_eqb (mode Q) EQUIT || Mode_eqb (mode Q) OBLIQ)
                         then 0
                         else atan2 (x xy) (y xy)) lp in
      Some (lp, P)
  end.

(** [static PJ *pj_laea_destructor(PJ *P, int errlev)]; [free] of the
    coefficients has no result in this model. *)
Definition pj_laea_destructor (P : option PJ) (errlev : proj_err) : PJ_result :=
  match P with
  | None => PJ_null None
  | Some P =>
    match opaque P with
    | None => pj_default_destructor P errlev
    | Some Q => pj_default_destructor P errlev
    end
  end.

(** [PJ *PJ_PROJECTION(laea)]: the setup routine.  [Q] is the block that
    [P->opaque] points to; it is stored back into [P] where [P] leaves
    the function.  [proj_log_error] writes a line to the log and nothing
    else; it has no counterpart here. *)
Definition PJ_PROJECTION_laea (P : PJ) : PJ_result :=
  if negb calloc_succeeds then pj_default_destructor P PROJ_ERR_OTHER
  else
    let Q := calloc_pj_laea_data in
    let P := set_destructor (set_opaque (Some Q) P) in
    let t := abs (phi0 P) in
    if M_HALFPI + EPS10 <? t then
      pj_laea_destructor (Some P) PROJ_ERR_INVALID_OP_ILLEGAL_ARG_VALUE
    else
      let Q :=
        if abs (t - M_HALFPI) <? EPS10 then
          set_mode (if phi0 P <? 0 then S_POLE else N_POLE) Q
        else if abs t <? EPS10 then set_mode EQUIT Q
        else set_mode OBLIQ Q in
      if negb (es P =? 0) then
        let P := set_e (sqrt (es P)) P in
        let Q := set_qp (pj_authalic_lat_q 1 (ellps P)) Q in
        let Q := set_mmf (0.5 / (1 - es P)) Q in
        let Q := set_apa (pj_authalic_lat_compute_coeffs (n P)) Q in
        match apa Q with
        | None => pj_laea_destructor (Some (set_opaque (Some Q) P)) PROJ_ERR_OTHER
        | Some _ =>
          let Q :=
            match mode Q with
            | N_POLE | S_POLE => set_dd 1 Q
            | EQUIT =>
              let Q := set_rq (sqrt (0.5 * qp Q)) Q in
              let Q := set_dd (1 / rq Q) Q in
              let Q := set_xmf 1 Q in
              set_ymf (0.5 * qp Q) Q
            | OBLIQ =>
              let Q := set_rq (sqrt (0.5 * qp Q)) Q in
              let sinphi := sin (phi0 P) in
              let cosphi := cos (phi0 P) in
              let b1 := pj_authalic_lat (phi0 P) sinphi cosphi (apa Q) (ellps P) (qp Q) in
              let Q := set_sinb1 (sin b1) Q in
              let Q := set_cosb1 (cos b1) Q in
              let Q := set_dd (cos (phi0 P) /
                               (sqrt (1 - es P * sinphi * sinphi) * rq Q * cosb1 Q)) Q in
              let Q := set_xmf (rq Q) Q in
              let Q := set_ymf (xmf Q / dd Q) Q in
              set_xmf (xmf Q * dd Q) Q
            end in
          PJ_ok (set_fwd bind_laea_e_forward
                   (set_inv bind_laea_e_inverse (set_opaque (Some Q) P)))
        end
      else
        let Q :=
          match mode Q with
          | OBLIQ => set_cosb1 (cos (phi0 P)) (set_sinb1 (sin (phi0 P)) Q)
          | _ => Q
          end in
        PJ_ok (set_fwd bind_laea_s_forward
                 (set_inv bind_laea_s_inverse (set_opaque (Some Q) P))).

(** The call through the bound pointer: [P->fwd(lp, P)], [P->inv(xy, P)]. *)
Definition call_fwd (lp : PJ_LP) (P : PJ) : option (PJ_XY * PJ) :=
  match fwd P with
  | Some bind_laea_e_forward => laea_e_forward lp P
  | Some bind_laea_s_forward => laea_s_forward lp P
  | None => None
  end.

Definition call_inv (xy : PJ_XY) (P : PJ) : option (PJ_LP * PJ) :=
  match inv P with
  | Some bind_laea_e_inverse => laea_e_inverse xy P
  | Some bind_laea_s_inverse => laea_s_inverse xy P
  | None => None
  end.

End Laea.

(** ** A sample implementation of the collaborators

    The theorems below hold for every [Libm] and every [Collaborators].
    To evaluate the transforms on concrete inputs one implementation is
    needed: polynomial approximations of the <math.h> functions and the
    authalic helper of a sphere (the limit of the helper as the eccentricity
    goes to 0).  No theorem about the projection depends on their
    accuracy. *)
Module Sample.

Definition sample_hypot (a b : float) : float := sqrt (a * a + b * b).

(** The Taylor polynomials of sine and cosine at 0, in Horner form:
    [horner t2 [d1; d2; ...] = 1 - t2/d1 * (1 - t2/d2 * ...)]. *)
Definition horner (t2 : float) (ds : list float) : float :=
  fold_right (fun d acc => 1 - t2 / d * acc) 1 ds.

Definition sample_sin (t : float) : float :=
  t * horner (t * t) [6; 20; 42; 72; 110; 156; 210; 272; 342; 420; 506; 600; 702].

Definition sample_cos (t : float) : float :=
  horner (t * t) [2; 12; 30; 56; 90; 132; 182; 240; 306; 380; 462; 552; 650].

(** Newton's iteration for [sin t = s], from [t = s]. *)
Fixpoint newton_asin (k : nat) (s t : float) : float :=
  match k with
  | O => t
  | S k' => newton_asin k' s (t - (sample_sin t - s) / sample_cos t)
  end.

Definition sample_asin (s : float) : float := newton_asin 12 s s.

Definition sample_atan2 (b a : float) : float :=
  let r := sample_hypot a b in
  if r =? 0 then 0
  else if 0 <=? a then sample_asin (b / r)
  else if 0 <=? b then 2 * M_HALFPI - sample_asin (b / r)
  else - (2 * M_HALFPI) - sample_asin (b / r).

#[export] Instance libm : Libm := {|
  sin := sample_sin;
  cos := sample_cos;
  asin := sample_asin;
  atan2 := sample_atan2;
  hypot := sample_hypot
|}.

(** The helper of a sphere: the authalic latitude is the latitude, and
    [q] at sine of latitude [s] is [2 s]. *)
Definition sphere_helper (alloc coeffs : bool) : Collaborators := {|
  pj_authalic_lat := fun lat _ _ _ _ _ => lat;
  pj_authalic_lat_inverse := fun beta _ _ _ => beta;
  pj_authalic_lat_q := fun s _ => 2 * s;
  pj_authalic_lat_compute_coeffs :=
    fun _ => if coeffs then Some [0; 0; 0; 0; 0; 0] else None;
  calloc_succeeds := alloc
|}.

(** Every allocation succeeds. *)
Definition helper : Collaborators := sphere_helper true true.

(** [calloc] of the state block fails. *)
Definition helper_no_memory : Collaborators := sphere_helper false true.

(** A [PJ] as setup receives it: the parameters set, nothing bound yet. *)
Definition PJ_new (lat_0 es_ n_ : float) : PJ :=
  mkPJ lat_0 es_ 0 n_ None false None None None.

(** Setup on the sample collaborators. *)
Definition setup (H : Collaborators) (lat_0 es_ n_ : float) : PJ_result :=
  @PJ_PROJECTION_laea libm H (PJ_new lat_0 es_ n_).

(** A state block of a sphere, and the instance around it. *)
Definition sphere_data (m : Mode) (s1 c1 : float) : pj_laea_data :=
  mk_laea_data s1 c1 0 0 0 0 0 0 None m.

Definition sphere (lat_0 : float) (Q : pj_laea_data) : PJ :=
  mkPJ lat_0 0 0 0 (Some Q) true
       (Some bind_laea_s_forward) (Some bind_laea_s_inverse) None.

(** The spheres centred on the north pole, on the equator, and on the
    latitudes 0.5 rad and 5e-11 rad, as setup builds them. *)
Definition north_polar_sphere : PJ := sphere M_HALFPI (sphere_data N_POLE 0 0).
Definition equatorial_sphere : PJ := sphere 0 (sphere_data EQUIT 0 0).
Definition oblique_sphere : PJ :=
  sphere 0.5 (sphere_data OBLIQ (sample_sin 0.5) (sample_cos 0.5)).
Definition near_equatorial_sphere : PJ := sphere 5e-11 (sphere_data EQUIT 0 0).

(** An ellipsoid of squared eccentricity 0.0067 (third flattening 0.0016)
    and the state blocks setup derives for it. *)
Definition es_ell : float := 0.0067.
Definition n_ell : float := 0.0016.

Definition ellipsoidal (lat_0 : float) (Q : pj_laea_data) : PJ :=
  mkPJ lat_0 es_ell (sqrt es_ell) n_ell (Some Q) true
       (Some bind_laea_e_forward) (Some bind_laea_e_inverse) None.

Definition north_polar_data : pj_laea_data :=
  mk_laea_data 0 0 0 0 (0.5 / (1 - es_ell)) 2 1 0 (Some [0; 0; 0; 0; 0; 0]) N_POLE.

Definition north_polar_ellipsoid : PJ := ellipsoidal M_HALFPI north_polar_data.

Definition equatorial_data : pj_laea_data :=
  mk_laea_data 0 0 1 1 (0.5 / (1 - es_ell)) 2 1 1 (Some [0; 0; 0; 0; 0; 0]) EQUIT.

Definition near_equatorial_ellipsoid : PJ := ellipsoidal 5e-11 equatorial_data.

End Sample.

(** ** Vocabulary of the specification *)

(** The error slot holds "outside projection domain". *)
Definition outside_domain (P : PJ) : Prop := last_errno P = Some OUTSIDE.

(** What the caller observes of a transform call: the pair returned and
    the error slot after the call. *)
Definition outcome {A : Set} (r : option (A * PJ)) : option (A * option proj_err) :=
  match r with
  | Some (a, P) => Some (a, last_errno P)
  | None => None
  end.

(** [a] is within the tolerance 1e-10 of [b]. *)
Definition near (a b : float) : bool := abs (a - b) <? EPS10.

(** The aspect mode as the spec words it: "|lat0| ~ 90 degrees picks a polar
    mode (sign gives N/S); |lat0| ~ 0 picks Equatorial; otherwise Oblique". *)
Definition spec_mode (lat_0 : float) : Mode :=
  if near (abs lat_0) M_HALFPI then
    if lat_0 <? 0 then S_POLE else N_POLE
  else if abs lat_0 <? EPS10 then EQUIT
  else OBLIQ.

(** The centre latitude setup rejects: |lat0| > 90 degrees + epsilon. *)
Definition out_of_range (lat_0 : float) : bool := M_HALFPI + EPS10 <? abs lat_0.

(** Two state blocks that agree on every field except [mmf]. *)
Definition agree_except_mmf (Q1 Q2 : pj_laea_data) : Prop :=
  sinb1 Q1 = sinb1 Q2 /\ cosb1 Q1 = cosb1 Q2 /\ xmf Q1 = xmf Q2 /\
  ymf Q1 = ymf Q2 /\ qp Q1 = qp Q2 /\ dd Q1 = dd Q2 /\ rq Q1 = rq Q2 /\
  apa Q1 = apa Q2 /\ mode Q1 = mode Q2.

(** A call changes nothing of [P] but, on a domain failure, the error slot. *)
Definition same_or_flagged (P P' : PJ) : Prop :=
  P' = P \/ P' = proj_errno_set P OUTSIDE.

(** The planar pair (0, 0) and the zero geodetic pair. *)
Definition origin : PJ_XY := mkXY 0 0.
Definition zero_lp : PJ_LP := mkLP 0 0.

(** The tolerance and 90 degrees as sign, mantissa and exponent. *)
Definition SF_EPS10 : spec_float := Eval vm_compute in Prim2SF EPS10.
Definition SF_HALFPI : spec_float := Eval vm_compute in Prim2SF M_HALFPI.

(** [near] on the specification of binary64. *)
Definition SFnear (a b : spec_float) : bool :=
  SFltb (SFabs (SF64sub a b)) SF_EPS10.

(** A number that is an infinity or has an exponent of at least [b]. *)
Definition at_least (b : Z) (r : spec_float) : Prop :=
  match r with
  | S754_finite _ _ k => (b <= k)%Z
  | S754_infinity _ => True
  | _ => False
  end.

(** The lifetime of an instance: the transform calls made on it, each
    through a bound pointer or directly, one after the other. *)
Section Lifetime.

Context {L : Libm} {C : Collaborators}.

Inductive call : PJ -> PJ -> Prop :=
| call_e_forward lp xy P P' : laea_e_forward lp P = Some (xy, P') -> call P P'
| call_s_forward lp xy P P' : laea_s_forward lp P = Some (xy, P') -> call P P'
| call_e_inverse xy lp P P' : laea_e_inverse xy P = Some (lp, P') -> call P P'
| call_s_inverse xy lp P P' : laea_s_inverse xy P = Some (lp, P') -> call P P'
| call_bound_fwd lp xy P P' : call_fwd lp P = Some (xy, P') -> call P P'
| call_bound_inv xy lp P P' : call_inv xy P = Some (lp, P') -> call P P'.

Inductive lifetime : PJ -> PJ -> Prop :=
| lifetime_start P : lifetime P P
| lifetime_call P P' P'' : lifetime P P' -> call P' P'' -> lifetime P P''.

End Lifetime.

(** ** Vocabulary of the further properties *)

(** [P'] is [P] but for the error slot. *)
Definition same_but_errno (P P' : PJ) : Prop :=
  phi0 P' = phi0 P /\ es P' = es P /\ e P' = e P /\ n P' = n P /\
  opaque P' = opaque P /\ has_destructor P' = has_destructor P /\
  fwd P' = fwd P /\ inv P' = inv P.



(** The geodetic pair mirrored in the central meridian, and in the equator. *)
Definition mirror_lon (lp : PJ_LP) : PJ_LP := mkLP (- lam lp) (phi lp).
Definition mirror_lat (lp : PJ_LP) : PJ_LP := mkLP (lam lp) (- phi lp).

(** The planar pair mirrored in the y axis. *)
Definition mirror_x (xy : PJ_XY) : PJ_XY := mkXY (- x xy) (y xy).

(** [b] is [a] negated, or both are the [0.] a branch assigns. *)
Definition negated (a b : float) : Prop := b = - a \/ (a = 0 /\ b = 0).

(** Two calls with the same result: the same pair (or none), and the error
    raised in both or in neither. *)
Definition same_result {A : Set} (P1 P2 : PJ) (r1 r2 : option (A * PJ)) : Prop :=
  match r1, r2 with
  | Some (a1, P1'), Some (a2, P2') =>
    a1 = a2 /\
    ((P1' = P1 /\ P2' = P2) \/
     (P1' = proj_errno_set P1 OUTSIDE /\ P2' = proj_errno_set P2 OUTSIDE))
  | None, None => True
  | _, _ => False
  end.

(** An [atan2] that is odd in its first argument on every input, built on
    the sample one, and the sample C library with it. *)
Definition sample_odd_atan2 (b a : float) : float :=
  if b <? 0 then - Sample.sample_atan2 (- b) a
  else if 0 <? b then Sample.sample_atan2 b a
  else b.

Definition sample_libm_odd : Libm := {|
  sin := Sample.sample_sin;
  cos := Sample.sample_cos;
  asin := Sample.sample_asin;
  atan2 := sample_odd_atan2;
  hypot := Sample.sample_hypot
|}.

(** The sample helper when the coefficients cannot be allocated. *)
Definition sample_helper_no_coefficients : Collaborators :=
  Sample.sphere_helper true false.

(** The sphere centred on the south pole, as setup builds it. *)
Definition sample_south_polar_sphere : PJ :=
  Sample.sphere (- M_HALFPI) (Sample.sphere_data S_POLE 0 0).

(** ** Facts of binary64 arithmetic *)

Section FloatFacts.

Lemma Prim2SF_zero : Prim2SF 0 = S754_zero false.
Proof. reflexivity. Qed.

Lemma abs_abs (a : float) : abs (abs a) = abs a.
Proof.
  apply Prim2SF_inj. rewrite !abs_spec. now destruct (Prim2SF a).
Qed.

(** Rounding does not look at the sign. *)
Lemma binary_round_aux_negb (s : bool) (m k : Z) (l : location) :
  binary_round_aux prec emax (negb s) m k l =
  SFopp (binary_round_aux prec emax s m k l).
Proof.
  unfold binary_round_aux.
  destruct (shr_fexp prec emax m k l) as [r1 k1].
  destruct (shr_fexp prec emax _ k1 loc_Exact) as [r2 k2].
  destruct (shr_m r2); try reflexivity.
  now destruct (k2 <=? emax - prec)%Z.
Qed.

Lemma SFmul_opp_r (s t : spec_float) :
  SF64mul s (SFopp t) = SFopp (SF64mul s t).
Proof.
  destruct s as [ss | ss | | ss ms ks], t as [st | st | | st mt kt]; cbn;
    try reflexivity; try (now destruct ss, st).
  rewrite <- binary_round_aux_negb. f_equal. now destruct ss, st.
Qed.

(** [a * (-b)] is [-(a * b)], bit for bit. *)
Lemma mul_opp_r (a b : float) : a * (- b) = - (a * b).
Proof.
  apply Prim2SF_inj. rewrite opp_spec, !mul_spec, opp_spec. apply SFmul_opp_r.
Qed.

Lemma is_zero_spec (d : float) :
  is_zero d = true <-> exists s, Prim2SF d = S754_zero s.
Proof.
  unfold is_zero. rewrite eqb_spec.
  destruct (Prim2SF d) as [s | s | | s m k]; cbn; split; try discriminate;
    try (intros [s' H]; discriminate); eauto;
    destruct s; discriminate.
Qed.

Lemma is_finite_spec (d : float) :
  is_finite d = true ->
  (exists s, Prim2SF d = S754_zero s) \/ (exists s m k, Prim2SF d = S754_finite s m k).
Proof.
  unfold is_finite, is_nan, is_infinity.
  rewrite !eqb_spec, abs_spec.
  destruct (Prim2SF d) as [s | s | | s m k]; cbn; try discriminate; eauto.
  destruct s; discriminate.
Qed.

(** A finite number times a zero is a zero. *)
Lemma mul_finite_zero (d z : float) :
  is_finite d = true -> is_zero z = true -> is_zero (d * z) = true.
Proof.
  intros Hd Hz. apply is_zero_spec in Hz. destruct Hz as [sz Hz].
  apply is_zero_spec.
  destruct (is_finite_spec d Hd) as [[s H] | [s [m [k H]]]];
    rewrite mul_spec, H, Hz; cbn; eauto.
Qed.

Lemma mul_zero_finite (z d : float) :
  is_zero z = true -> is_finite d = true -> is_zero (z * d) = true.
Proof.
  intros Hz Hd. apply is_zero_spec in Hz. destruct Hz as [sz Hz].
  apply is_zero_spec.
  destruct (is_finite_spec d Hd) as [[s H] | [s [m [k H]]]];
    rewrite mul_spec, H, Hz; cbn; eauto.
Qed.

(** A zero divided by a finite number other than zero is a zero. *)
Lemma div_zero_finite (z d : float) :
  is_zero z = true -> is_finite d = true -> is_zero d = false ->
  is_zero (z / d) = true.
Proof.
  intros Hz Hd Hnz. apply is_zero_spec in Hz. destruct Hz as [sz Hz].
  apply is_zero_spec.
  destruct (is_finite_spec d Hd) as [[s H] | [s [m [k H]]]].
  - assert (is_zero d = true) by (apply is_zero_spec; eauto). congruence.
  - rewrite div_spec, H, Hz. cbn. eauto.
Qed.

(** A zero is below the tolerance. *)
Lemma zero_below_EPS10 (z : float) : is_zero z = true -> (z <? EPS10) = true.
Proof.
  intros Hz. apply is_zero_spec in Hz. destruct Hz as [sz Hz].
  rewrite ltb_spec, Hz. reflexivity.
Qed.

Lemma float_neq (a b : float) : (a =? b) = false -> (a =? a) = true -> a <> b.
Proof. intros H Ha E. rewrite <- E in H. congruence. Qed.

End FloatFacts.

(** ** Rounding: how large a sum or difference is

    The arithmetic of binary64 is specified by [SpecFloat]: a finite number
    is a sign, a mantissa [m] and an exponent [k], of value [m * 2^k].  The
    lemmas bound the exponent of a rounded result from below. *)

Section Rounding.

Local Open Scope Z_scope.

Lemma digits2_pos_size (p : positive) : digits2_pos p = Pos.size p.
Proof. induction p; cbn; congruence. Qed.

Lemma Zdigits2_log2 (m : Z) : 0 < m -> Zdigits2 m = Z.log2 m + 1.
Proof.
  destruct m as [| p | p]; try lia. intros _. cbn [Zdigits2].
  rewrite digits2_pos_size. destruct p; cbn; lia.
Qed.

Lemma iter_pos_iter {A : Type} (f : A -> A) (p : positive) (a : A) :
  iter_pos f p a = Pos.iter f a p.
Proof.
  revert a. induction p as [p IH | p IH |]; intros a; cbn [iter_pos Pos.iter].
  - now rewrite !IH, !Pos.iter_swap.
  - now rewrite !IH.
  - reflexivity.
Qed.

Lemma shr_1_m (r : shr_record) :
  0 <= shr_m r -> shr_m (shr_1 r) = Z.div2 (shr_m r).
Proof.
  destruct r as [m r s]. cbn [shr_m]. intros H.
  destruct m as [| [p | p |] | p]; try lia; reflexivity.
Qed.

Lemma iter_shr_1_m (p : positive) (r : shr_record) :
  0 <= shr_m r ->
  shr_m (Pos.iter shr_1 r p) = Pos.iter Z.div2 (shr_m r) p /\
  0 <= shr_m (Pos.iter shr_1 r p).
Proof.
  revert r. induction p as [p IH | p IH |]; intros r H; cbn [Pos.iter].
  - destruct (IH r H) as [E1 N1].
    destruct (IH _ N1) as [E2 N2].
    rewrite shr_1_m, E2, E1 by assumption. split; [reflexivity |].
    rewrite <- E1, <- E2. apply Z.div2_nonneg. assumption.
  - destruct (IH r H) as [E1 N1].
    destruct (IH _ N1) as [E2 N2].
    rewrite E2, E1. split; [reflexivity |]. rewrite <- E1, <- E2. assumption.
  - rewrite shr_1_m by assumption. split; [reflexivity |].
    now apply Z.div2_nonneg.
Qed.

Lemma iter_pos_shr_m (p : positive) (r : shr_record) :
  0 <= shr_m r -> shr_m (iter_pos shr_1 p r) = Z.shiftr (shr_m r) (Zpos p).
Proof.
  intros H. rewrite iter_pos_iter. now apply iter_shr_1_m.
Qed.

Lemma fexp_normal (k : Z) : -1021 <= k -> fexp prec emax k = k - 53.
Proof. unfold fexp, emin, prec, emax. lia. Qed.

(** [shr_fexp] on a positive mantissa in the normal range. *)
Lemma shr_fexp_normal (m k : Z) (l : location) :
  0 < m -> -1021 <= Z.log2 m + 1 + k ->
  let '(r, k') := shr_fexp prec emax m k l in
  0 < shr_m r /\ Z.log2 (shr_m r) + 1 + k' = Z.log2 m + 1 + k /\
  Z.log2 m + 1 + k - 53 <= k'.
Proof.
  intros Hm Hk. unfold shr_fexp, shr.
  rewrite Zdigits2_log2, fexp_normal by assumption.
  assert (Hr : shr_m (shr_record_of_loc m l) = m) by (now destruct l as [| []]).
  destruct (Z.log2 m + 1 + k - 53 - k) as [| p | p] eqn:Hn.
  - rewrite Hr. lia.
  - rewrite iter_pos_shr_m by (rewrite Hr; lia). rewrite Hr.
    assert (Hp : Z.pos p <= Z.log2 m) by lia.
    assert (Hlog : Z.log2 (Z.shiftr m (Z.pos p)) = Z.log2 m - Z.pos p).
    { rewrite Z.log2_shiftr by lia. lia. }
    assert (Hpos : 0 < Z.shiftr m (Z.pos p)).
    { destruct (Z.shiftr m (Z.pos p)) as [| q | q] eqn:Hq; try lia.
      - apply Z.shiftr_eq_0_iff in Hq. lia.
      - assert (0 <= Z.shiftr m (Z.pos p)) by (apply Z.shiftr_nonneg; lia). lia. }
    lia.
  - rewrite Hr. lia.
Qed.

Lemma round_nearest_even_ge (m : Z) (l : location) : m <= round_nearest_even m l.
Proof.
  destruct l as [| []]; cbn; try lia. destruct (Z.even m); lia.
Qed.

Lemma binary_round_aux_at_least (s : bool) (m k : Z) (l : location) :
  0 < m -> -1021 <= Z.log2 m + 1 + k ->
  at_least (Z.log2 m + 1 + k - 53) (binary_round_aux prec emax s m k l).
Proof.
  intros Hm Hk. unfold binary_round_aux.
  pose proof (shr_fexp_normal m k l Hm Hk) as H1.
  destruct (shr_fexp prec emax m k l) as [r1 k1].
  destruct H1 as (P1 & E1 & B1).
  pose proof (round_nearest_even_ge (shr_m r1) (loc_of_shr_record r1)) as Hge.
  set (m2 := round_nearest_even (shr_m r1) (loc_of_shr_record r1)) in *.
  assert (Hl : Z.log2 (shr_m r1) <= Z.log2 m2) by (apply Z.log2_le_mono; lia).
  pose proof (shr_fexp_normal m2 k1 loc_Exact ltac:(lia) ltac:(lia)) as H2.
  destruct (shr_fexp prec emax m2 k1 loc_Exact) as [r2 k2].
  destruct H2 as (P2 & E2 & B2).
  destruct (shr_m r2) as [| p | p]; try lia.
  destruct (k2 <=? emax - prec); cbn; lia.
Qed.

Lemma iter_xO_shiftl (m d : positive) :
  Zpos (Pos.iter xO m d) = Z.shiftl (Zpos m) (Zpos d).
Proof.
  cbn. revert m. induction d as [d IH | d IH |]; intros m; cbn [Pos.iter].
  - rewrite Pos2Z.inj_xO, !IH. reflexivity.
  - now rewrite !IH.
  - reflexivity.
Qed.

(** Aligning a mantissa keeps the magnitude. *)
Lemma shl_align_log2 (m : positive) (k k' : Z) :
  let '(m', k2) := shl_align m k k' in
  Z.log2 (Zpos m') + k2 = Z.log2 (Zpos m) + k /\ k2 <= k /\
  (k' <= k -> k2 = k') /\ Zpos m' = Zpos m * 2 ^ (k - k2).
Proof.
  unfold shl_align. destruct (k' - k) as [| d | d] eqn:Hd.
  - rewrite Z.sub_diag. cbn [Z.pow]. lia.
  - rewrite Z.sub_diag. cbn [Z.pow]. lia.
  - rewrite iter_xO_shiftl, Z.log2_shiftl by lia.
    rewrite Z.shiftl_mul_pow2 by lia.
    replace (k - k') with (Z.pos d) by lia. lia.
Qed.

Lemma binary_round_at_least (s : bool) (m : positive) (k : Z) :
  -1021 <= Z.log2 (Zpos m) + 1 + k ->
  at_least (Z.log2 (Zpos m) + 1 + k - 53) (binary_round prec emax s m k).
Proof.
  intros Hk. unfold binary_round.
  pose proof (shl_align_log2 m k (fexp prec emax (Z.pos (digits2_pos m) + k))) as H.
  destruct (shl_align m k _) as [mz kz].
  destruct H as (E & _).
  replace (Z.log2 (Z.pos m) + 1 + k - 53)
    with (Z.log2 (Z.pos mz) + 1 + kz - 53) by lia.
  apply binary_round_aux_at_least; lia.
Qed.

Lemma binary_normalize_at_least (z k : Z) (sz : bool) :
  z <> 0 -> -1021 <= Z.log2 (Z.abs z) + 1 + k ->
  at_least (Z.log2 (Z.abs z) + 1 + k - 53) (binary_normalize prec emax z k sz).
Proof.
  intros Hz Hk. destruct z as [| p | p]; [lia | |]; cbn [binary_normalize Z.abs] in *;
    now apply binary_round_at_least.
Qed.

Lemma at_least_weaken (b b' : Z) (r : spec_float) :
  b' <= b -> at_least b r -> at_least b' r.
Proof. destruct r; cbn; lia. Qed.

Lemma Prim2SF_EPS10 : Prim2SF EPS10 = SF_EPS10.
Proof. vm_compute. reflexivity. Qed.

Lemma Prim2SF_HALFPI : Prim2SF M_HALFPI = SF_HALFPI.
Proof. vm_compute. reflexivity. Qed.

Lemma near_spec (a b : float) : near a b = SFnear (Prim2SF a) (Prim2SF b).
Proof.
  unfold near, SFnear. now rewrite ltb_spec, abs_spec, sub_spec, Prim2SF_EPS10.
Qed.

Lemma at_least_not_below (r : spec_float) :
  at_least (-85) r -> SFltb (SFabs r) SF_EPS10 = false.
Proof.
  destruct r as [s | s | | s m k]; cbn [at_least]; try easy.
  intros H. unfold SFltb, SF_EPS10, SFabs, SFcompare.
  assert (E : (k ?= -86) = Gt) by (apply Z.compare_gt_iff; lia).
  now rewrite E.
Qed.

(** x - y for x and y of opposite signs is at least as large as y. *)
Lemma SFsub_opposite_signs (s : bool) (mx my : positive) (kx ky : Z) :
  -1021 <= Z.log2 (Zpos my) + 1 + ky ->
  at_least (Z.log2 (Zpos my) + 1 + ky - 53)
    (SF64sub (S754_finite s mx kx) (S754_finite (negb s) my ky)).
Proof.
  intros Hy. unfold SF64sub, SFsub.
  pose proof (shl_align_log2 mx kx (Z.min kx ky)) as Hx.
  pose proof (shl_align_log2 my ky (Z.min kx ky)) as Hy'.
  destruct (shl_align mx kx (Z.min kx ky)) as [mx' kx'].
  destruct (shl_align my ky (Z.min kx ky)) as [my' ky'].
  cbn [fst].
  destruct Hx as (_ & _ & _ & _), Hy' as (Ey & _ & Ky & _).
  specialize (Ky ltac:(lia)).
  set (z := cond_Zopp s (Z.pos mx') - cond_Zopp (negb s) (Z.pos my')).
  assert (Hz : Z.abs z = Z.pos mx' + Z.pos my') by (subst z; destruct s; cbn; lia).
  assert (Hl : Z.log2 (Z.pos my') <= Z.log2 (Z.abs z)) by (apply Z.log2_le_mono; lia).
  eapply at_least_weaken; [| apply binary_normalize_at_least]; lia.
Qed.

(** A valid mantissa has at most 53 bits. *)
Lemma valid_mantissa (s : bool) (m : positive) (k : Z) :
  valid_binary (S754_finite s m k) = true -> Zpos m < 2 ^ 53.
Proof.
  unfold valid_binary, SpecFloat.valid_binary, bounded, canonical_mantissa.
  intros H. apply andb_prop in H. destruct H as [H _].
  apply Z.eqb_eq in H. revert H.
  change (Z.pos (digits2_pos m)) with (Zdigits2 (Z.pos m)).
  rewrite Zdigits2_log2 by lia. unfold fexp, emin, prec, emax. intros H.
  change IntDef.Z.max with Z.max in H.
  apply Z.log2_lt_pow2; lia.
Qed.

(** Below the tolerance: the exponent is at most that of the tolerance. *)
Lemma below_EPS10_exponent (m : positive) (k : Z) :
  SFltb (S754_finite false m k) SF_EPS10 = true -> k <= -86.
Proof.
  unfold SFltb, SF_EPS10, SFcompare.
  destruct (Z.compare_spec k (-86)); try discriminate; lia.
Qed.

(** A valid x below the tolerance minus pi/2: as large as 1. *)
Lemma SFsub_small_HALFPI (m : positive) (k : Z) :
  Zpos m < 2 ^ 53 -> k <= -86 ->
  at_least (-85) (SF64sub (S754_finite false m k) SF_HALFPI).
Proof.
  intros Hm Hk. unfold SF64sub, SFsub, SF_HALFPI.
  pose proof (shl_align_log2 m k (Z.min k (-52))) as Hx.
  pose proof (shl_align_log2 7074237752028440 (-52) (Z.min k (-52))) as Hy.
  destruct (shl_align m k (Z.min k (-52))) as [mx' kx'].
  destruct (shl_align 7074237752028440 (-52) (Z.min k (-52))) as [my' ky'].
  cbn [fst cond_Zopp].
  destruct Hx as (_ & _ & Kx & Ex), Hy as (_ & _ & Ky & Ey).
  specialize (Kx ltac:(lia)). specialize (Ky ltac:(lia)).
  replace (Z.min k (-52)) with k in * by lia. subst kx' ky'.
  rewrite Z.sub_diag in Ex. cbn [Z.pow] in Ex.
  set (z := Z.pos mx' - Z.pos my').
  assert (Hp : 2 ^ 34 <= 2 ^ (-52 - k)) by (apply Z.pow_le_mono_r; lia).
  assert (Hs : 2 ^ 52 * 2 ^ (-52 - k) = 2 ^ (- k)).
  { rewrite <- Z.pow_add_r by lia. f_equal. lia. }
  change (2 ^ 34) with 17179869184 in Hp.
  change (2 ^ 53) with 9007199254740992 in Hm.
  change (2 ^ 52) with 4503599627370496 in Hs.
  assert (Hz : 2 ^ (- k) <= Z.abs z) by (subst z; lia).
  assert (Hl : - k <= Z.log2 (Z.abs z)) by (apply Z.log2_le_pow2; lia).
  eapply at_least_weaken; [| apply binary_normalize_at_least]; lia.
Qed.

(** The sign of the rounding does not matter to the absolute value. *)
Lemma SFabs_binary_normalize_opp (z k : Z) :
  SFabs (binary_normalize prec emax (- z) k false) =
  SFabs (binary_normalize prec emax z k false).
Proof.
  assert (H : forall p, SFabs (binary_round prec emax true p k) =
                        SFabs (binary_round prec emax false p k)).
  { intros p. unfold binary_round. destruct (shl_align _ _ _) as [mz kz].
    change true with (negb false). rewrite binary_round_aux_negb.
    now destruct (binary_round_aux _ _ _ _ _ _). }
  destruct z as [| p | p]; cbn [Z.opp binary_normalize]; auto.
Qed.

Lemma SFnear_HALFPI_positive (a : spec_float) :
  SFnear a SF_HALFPI = true -> exists m k, a = S754_finite false m k.
Proof.
  unfold SFnear. destruct a as [s | s | | [|] m k]; try (destruct s); try discriminate.
  - intros H. exfalso.
    pose proof (SFsub_opposite_signs true m 7074237752028440 k (-52) ltac:(cbn; lia)) as L.
    apply (at_least_weaken _ (-85)) in L; [| cbn; lia].
    apply at_least_not_below in L. unfold SF_HALFPI in H. cbn [negb] in L. congruence.
  - eauto.
Qed.

Lemma SFnear_mHALFPI_negative (a : spec_float) :
  SFnear a (SFopp SF_HALFPI) = true -> exists m k, a = S754_finite true m k.
Proof.
  unfold SFnear. destruct a as [s | s | | [|] m k]; try (destruct s); try discriminate.
  - eauto.
  - intros H. exfalso.
    pose proof (SFsub_opposite_signs false m 7074237752028440 k (-52) ltac:(cbn; lia)) as L.
    apply (at_least_weaken _ (-85)) in L; [| cbn; lia].
    apply at_least_not_below in L. unfold SF_HALFPI in H. cbn [negb SFopp] in *. congruence.
Qed.

Lemma SFnear_opp (m : positive) (k : Z) :
  SFnear (S754_finite true m k) (SFopp SF_HALFPI) =
  SFnear (S754_finite false m k) SF_HALFPI.
Proof.
  unfold SFnear, SF64sub, SFsub, SF_HALFPI. cbn [SFopp negb cond_Zopp].
  destruct (shl_align m k _) as [mx kx].
  destruct (shl_align 7074237752028440 (-52) _) as [my ky]. cbn [fst].
  replace (- Z.pos mx - - Z.pos my) with (- (Z.pos mx - Z.pos my)) by lia.
  now rewrite SFabs_binary_normalize_opp.
Qed.

Lemma SFnear_small (a : spec_float) :
  valid_binary a = true -> SFltb (SFabs a) SF_EPS10 = true ->
  SFnear (SFabs a) SF_HALFPI = false.
Proof.
  intros Hv. destruct a as [s | s | | s m k]; try discriminate.
  - intros _. reflexivity.
  - cbn [SFabs]. intros H. unfold SFnear. apply at_least_not_below.
    apply SFsub_small_HALFPI.
    + now apply (valid_mantissa s m k).
    + now apply (below_EPS10_exponent m).
Qed.

End Rounding.

(** ** The classification of the centre latitude *)

Section Classification.

Lemma Prim2SF_opp_HALFPI : Prim2SF (- M_HALFPI) = SFopp SF_HALFPI.
Proof. now rewrite opp_spec, Prim2SF_HALFPI. Qed.

Lemma abs_of_positive (a : float) (m : positive) (k : Z) :
  Prim2SF a = S754_finite false m k -> abs a = a.
Proof. intros H. apply Prim2SF_inj. now rewrite abs_spec, H. Qed.

Lemma ltb_zero_finite (a : float) (s : bool) (m : positive) (k : Z) :
  Prim2SF a = S754_finite s m k -> (a <? 0) = s.
Proof. intros H. rewrite ltb_spec, H, Prim2SF_zero. now destruct s. Qed.

(** Within the tolerance of +90 degrees: a positive number, and the test
    setup makes on [fabs(phi0)] holds. *)
Lemma near_HALFPI (a : float) :
  near a M_HALFPI = true ->
  near (abs a) M_HALFPI = true /\ (a <? 0) = false.
Proof.
  intros H. pose proof H as H'. rewrite near_spec, Prim2SF_HALFPI in H'.
  apply SFnear_HALFPI_positive in H'. destruct H' as (m & k & Ha).
  rewrite (abs_of_positive a m k Ha), (ltb_zero_finite a false m k Ha). auto.
Qed.

(** Within the tolerance of -90 degrees: a negative number, and the test
    setup makes on [fabs(phi0)] holds. *)
Lemma near_opp_HALFPI (a : float) :
  near a (- M_HALFPI) = true ->
  near (abs a) M_HALFPI = true /\ (a <? 0) = true.
Proof.
  intros H. pose proof H as H'. rewrite near_spec, Prim2SF_opp_HALFPI in H'.
  apply SFnear_mHALFPI_negative in H'. destruct H' as (m & k & Ha).
  rewrite (ltb_zero_finite a true m k Ha). split; [| reflexivity].
  rewrite near_spec, Prim2SF_opp_HALFPI, Ha, SFnear_opp in H.
  now rewrite near_spec, abs_spec, Prim2SF_HALFPI, Ha.
Qed.

(** Below the tolerance in absolute value: not within the tolerance of
    90 degrees. *)
Lemma small_not_near_HALFPI (a : float) :
  (abs a <? EPS10) = true -> near (abs a) M_HALFPI = false.
Proof.
  rewrite ltb_spec, Prim2SF_EPS10, near_spec, Prim2SF_HALFPI, abs_spec.
  apply SFnear_small, Prim2SF_valid.
Qed.

(** The test setup makes on [fabs(phi0)] holds only within the tolerance of
    +90 or of -90 degrees. *)
Lemma near_abs_HALFPI (a : float) :
  near (abs a) M_HALFPI = true ->
  near a M_HALFPI = true \/ near a (- M_HALFPI) = true.
Proof.
  rewrite !near_spec, Prim2SF_HALFPI, Prim2SF_opp_HALFPI, abs_spec.
  destruct (Prim2SF a) as [s | s | | [|] m k]; cbn [SFabs]; try discriminate.
  - rewrite SFnear_opp. auto.
  - auto.
Qed.

(** The mode of the spec's wording, by the cases of the claim. *)
Lemma spec_mode_cases (lat_0 : float) :
  (near lat_0 M_HALFPI = true -> spec_mode lat_0 = N_POLE) /\
  (near lat_0 (- M_HALFPI) = true -> spec_mode lat_0 = S_POLE) /\
  ((abs lat_0 <? EPS10) = true -> spec_mode lat_0 = EQUIT) /\
  (near lat_0 M_HALFPI = false -> near lat_0 (- M_HALFPI) = false ->
   (abs lat_0 <? EPS10) = false -> spec_mode lat_0 = OBLIQ).
Proof.
  unfold spec_mode. repeat split.
  - intros H. apply near_HALFPI in H. destruct H as [-> ->]. reflexivity.
  - intros H. apply near_opp_HALFPI in H. destruct H as [-> ->]. reflexivity.
  - intros H. rewrite (small_not_near_HALFPI _ H), H. reflexivity.
  - intros H1 H2 H3. rewrite H3.
    destruct (near (abs lat_0) M_HALFPI) eqn:E; [| reflexivity].
    apply near_abs_HALFPI in E. destruct E; congruence.
Qed.

End Classification.

(** ** What a transform call leaves of the instance *)

Section Frame.

Context {L : Libm} {C : Collaborators}.

Lemma same_or_flagged_opaque (P P' : PJ) :
  same_or_flagged P P' -> opaque P' = opaque P.
Proof. now intros [-> | ->]. Qed.

Lemma laea_e_forward_frame (lp : PJ_LP) (P : PJ) (xy : PJ_XY) (P' : PJ) :
  laea_e_forward lp P = Some (xy, P') -> same_or_flagged P P'.
Proof.
  unfold laea_e_forward, same_or_flagged.
  destruct (opaque P) as [Q |]; [| discriminate].
  destruct (laea_e_forward_b _ _ _ _ _ _) as [b q].
  destruct (abs b <? EPS10); [intros [= _ <-]; now right |].
  destruct (mode Q); try destruct (1e-15 <=? q); intros [= _ <-]; now left.
Qed.

Lemma laea_s_forward_frame (lp : PJ_LP) (P : PJ) (xy : PJ_XY) (P' : PJ) :
  laea_s_forward lp P = Some (xy, P') -> same_or_flagged P P'.
Proof.
  unfold laea_s_forward, same_or_flagged.
  destruct (opaque P) as [Q |]; [| discriminate].
  destruct (mode Q); cbn -[sin cos];
    match goal with |- context [if ?c then _ else _] => destruct c end;
    intros [= _ <-]; auto.
Qed.

Lemma laea_e_inverse_frame (xy : PJ_XY) (P : PJ) (lp : PJ_LP) (P' : PJ) :
  laea_e_inverse xy P = Some (lp, P') -> same_or_flagged P P'.
Proof.
  unfold laea_e_inverse, same_or_flagged.
  destruct (opaque P) as [Q |]; [| discriminate].
  destruct (mode Q); cbn -[hypot asin atan2 sin cos];
    repeat match goal with |- context [if ?c then _ else _] => destruct c end;
    intros [= _ <-]; auto.
Qed.

Lemma laea_s_inverse_frame (xy : PJ_XY) (P : PJ) (lp : PJ_LP) (P' : PJ) :
  laea_s_inverse xy P = Some (lp, P') -> same_or_flagged P P'.
Proof.
  unfold laea_s_inverse, same_or_flagged.
  destruct (opaque P) as [Q |]; [| discriminate].
  cbn -[hypot asin atan2 sin cos].
  destruct (1 <? _); [intros [= _ <-]; now right |].
  destruct (mode Q); intros [= _ <-]; now left.
Qed.

(** A transform returns whenever the state block is there. *)
Lemma laea_e_forward_total (lp : PJ_LP) (P : PJ) (Q : pj_laea_data) :
  opaque P = Some Q -> exists xy P', laea_e_forward lp P = Some (xy, P').
Proof.
  intros HQ. unfold laea_e_forward. rewrite HQ.
  destruct (laea_e_forward_b _ _ _ _ _ _) as [b q].
  destruct (abs b <? EPS10); [eauto |].
  destruct (mode Q); try destruct (1e-15 <=? q); eauto.
Qed.

Lemma laea_s_forward_total (lp : PJ_LP) (P : PJ) (Q : pj_laea_data) :
  opaque P = Some Q -> exists xy P', laea_s_forward lp P = Some (xy, P').
Proof.
  intros HQ. unfold laea_s_forward. rewrite HQ.
  destruct (mode Q); cbn -[sin cos];
    match goal with |- context [if ?c then _ else _] => destruct c end; eauto.
Qed.

Lemma laea_e_inverse_total (xy : PJ_XY) (P : PJ) (Q : pj_laea_data) :
  opaque P = Some Q -> exists lp P', laea_e_inverse xy P = Some (lp, P').
Proof.
  intros HQ. unfold laea_e_inverse. rewrite HQ.
  destruct (mode Q); cbn -[hypot asin atan2 sin cos];
    repeat match goal with |- context [if ?c then _ else _] => destruct c end; eauto.
Qed.

Lemma laea_s_inverse_total (xy : PJ_XY) (P : PJ) (Q : pj_laea_data) :
  opaque P = Some Q -> exists lp P', laea_s_inverse xy P = Some (lp, P').
Proof.
  intros HQ. unfold laea_s_inverse. rewrite HQ.
  cbn -[hypot asin atan2 sin cos].
  destruct (1 <? _); [eauto |].
  destruct (mode Q); eauto.
Qed.

End Frame.

(** ** The scale factor [mmf] *)

Section Mmf.

Context {L : Libm} {C : Collaborators}.

(** C10: the stored [mmf] has no influence on any transform.  Two instances
    whose state blocks agree on every field except [mmf], and which agree on
    everything else, give the same pair and the same error slot in the
    ellipsoidal and the spherical forward and inverse transform, on every
    input pair. *)
Theorem mmf_has_no_influence
    (P1 P2 : PJ) (Q1 Q2 : pj_laea_data) (lp : PJ_LP) (xy : PJ_XY) :
  opaque P1 = Some Q1 -> opaque P2 = Some Q2 ->
  agree_except_mmf Q1 Q2 ->
  set_opaque None P1 = set_opaque None P2 ->
  outcome (laea_e_forward lp P1) = outcome (laea_e_forward lp P2) /\
  outcome (laea_s_forward lp P1) = outcome (laea_s_forward lp P2) /\
  outcome (laea_e_inverse xy P1) = outcome (laea_e_inverse xy P2) /\
  outcome (laea_s_inverse xy P1) = outcome (laea_s_inverse xy P2).
Proof.
  intros H1 H2 HQ HP.
  destruct P1 as [p1 s1 e1 n1 o1 d1 f1 i1 r1], P2 as [p2 s2 e2 n2 o2 d2 f2 i2 r2].
  cbn in H1, H2. injection HP as -> -> -> -> -> -> -> ->. subst o1 o2.
  destruct Q1 as [a1 b1 c1 g1 m1 q1 h1 k1 u1 w1], Q2 as [a2 b2 c2 g2 m2 q2 h2 k2 u2 w2].
  unfold agree_except_mmf in HQ. cbn in HQ.
  destruct HQ as (-> & -> & -> & -> & -> & -> & -> & -> & ->).
  repeat split.
  - unfold laea_e_forward, laea_e_forward_b, ellps; cbn [opaque mode].
    destruct w2; cbn -[pj_authalic_lat sin cos];
      repeat match goal with |- context [if ?c then _ else _] => destruct c end;
      reflexivity.
  - unfold laea_s_forward; cbn [opaque mode].
    destruct w2; cbn -[sin cos];
      match goal with |- context [if ?c then _ else _] => destruct c end;
      reflexivity.
  - unfold laea_e_inverse, ellps; cbn [opaque mode].
    destruct w2; cbn -[hypot asin atan2 sin cos];
      repeat match goal with |- context [if ?c then _ else _] => destruct c end;
      reflexivity.
  - unfold laea_s_inverse; cbn -[hypot asin atan2 sin cos].
    destruct (1 <? _); [reflexivity |].
    destruct w2; reflexivity.
Qed.

End Mmf.

(** The theorem at the north-polar ellipsoid with [mmf] replaced by 7. *)
Lemma mmf_has_no_influence_witness :
  let P1 := Sample.north_polar_ellipsoid in
  let P2 := set_opaque (Some (set_mmf 7 Sample.north_polar_data)) P1 in
  outcome (@laea_e_forward Sample.libm Sample.helper (mkLP 0.3 0.4) P1) =
  outcome (@laea_e_forward Sample.libm Sample.helper (mkLP 0.3 0.4) P2).
Proof.
  intros P1 P2.
  refine (proj1 (@mmf_has_no_influence Sample.libm Sample.helper P1 P2
                   Sample.north_polar_data (set_mmf 7 Sample.north_polar_data)
                   (mkLP 0.3 0.4) (mkXY 0.1 0.2) _ _ _ _)).
  - reflexivity.
  - reflexivity.
  - unfold agree_except_mmf. cbn. repeat split; reflexivity.
  - reflexivity.
Defined.

(** ** The state block over the lifetime of an instance *)

Section Invariants.

Context {L : Libm} {C : Collaborators}.

Lemma call_frame (P P' : PJ) : call P P' -> same_or_flagged P P'.
Proof.
  intros H. destruct H as [lp xy P P' H | lp xy P P' H | xy lp P P' H
                          | xy lp P P' H | lp xy P P' H | xy lp P P' H].
  - now apply laea_e_forward_frame in H.
  - now apply laea_s_forward_frame in H.
  - now apply laea_e_inverse_frame in H.
  - now apply laea_s_inverse_frame in H.
  - unfold call_fwd in H. destruct (fwd P) as [[|] |]; [| | discriminate].
    + now apply laea_e_forward_frame in H.
    + now apply laea_s_forward_frame in H.
  - unfold call_inv in H. destruct (inv P) as [[|] |]; [| | discriminate].
    + now apply laea_e_inverse_frame in H.
    + now apply laea_s_inverse_frame in H.
Qed.

(** No sequence of transform calls changes the state block. *)
Lemma lifetime_opaque (P P' : PJ) : lifetime P P' -> opaque P' = opaque P.
Proof.
  induction 1 as [P | P P' P'' _ IH Hc].
  - reflexivity.
  - rewrite <- IH. apply same_or_flagged_opaque. now apply call_frame.
Qed.

(** The mode setup stores, as the source computes it, is the mode of the
    spec's wording. *)
Lemma stored_mode_spec (lat_0 : float) (Q : pj_laea_data) :
  mode (if abs (abs lat_0 - M_HALFPI) <? EPS10
        then set_mode (if lat_0 <? 0 then S_POLE else N_POLE) Q
        else if abs (abs lat_0) <? EPS10 then set_mode EQUIT Q
        else set_mode OBLIQ Q) = spec_mode lat_0.
Proof.
  unfold spec_mode, near. rewrite abs_abs.
  destruct (abs (abs lat_0 - M_HALFPI) <? EPS10).
  - now destruct (lat_0 <? 0).
  - now destruct (abs lat_0 <? EPS10).
Qed.

(** What a successful setup has done. *)
Lemma setup_ok_inv (P P' : PJ) :
  PJ_PROJECTION_laea P = PJ_ok P' ->
  calloc_succeeds = true /\ out_of_range (phi0 P) = false /\
  phi0 P' = phi0 P /\ es P' = es P /\ last_errno P' = last_errno P /\
  exists Q, opaque P' = Some Q /\ mode Q = spec_mode (phi0 P) /\
    if es P =? 0
    then apa Q = None /\ fwd P' = Some bind_laea_s_forward /\
         inv P' = Some bind_laea_s_inverse
    else apa Q = pj_authalic_lat_compute_coeffs (n P) /\ apa Q <> None /\
         fwd P' = Some bind_laea_e_forward /\ inv P' = Some bind_laea_e_inverse.
Proof.
  unfold PJ_PROJECTION_laea, out_of_range.
  destruct calloc_succeeds; [| discriminate].
  cbn [negb phi0 set_destructor set_opaque es].
  destruct (M_HALFPI + EPS10 <? abs (phi0 P)); [discriminate |].
  pose proof (stored_mode_spec (phi0 P) calloc_pj_laea_data) as Hm.
  set (Q0 := if abs (abs (phi0 P) - M_HALFPI) <? EPS10 then _ else _) in *.
  assert (Ha : apa Q0 = None).
  { subst Q0. repeat match goal with |- context [if ?c then _ else _] => destruct c end;
      reflexivity. }
  destruct (es P =? 0); cbn [negb].
  - intros H. injection H as H. subst P'. repeat split; try reflexivity.
    eexists; split; [reflexivity |].
    destruct (mode Q0) eqn:HQ; cbn; rewrite ?HQ; auto.
  - cbn -[pj_authalic_lat_compute_coeffs pj_authalic_lat_q pj_authalic_lat sin cos].
    destruct (pj_authalic_lat_compute_coeffs (n P)) as [co |] eqn:Hco;
      [| discriminate].
    intros H. injection H as H. subst P'. repeat split; try reflexivity.
    eexists; split; [reflexivity |].
    destruct (mode Q0) eqn:HQ; cbn; rewrite ?HQ; repeat split;
      try reflexivity; try discriminate; congruence.
Qed.

(** C8: on every instance setup constructs, [apa] is non-null exactly when
    the squared eccentricity [es] passed to setup is nonzero, and that holds
    of the state block after any sequence of transform calls; for [es = 0]
    it is null all along. *)
Theorem apa_nonnull_iff_es_nonzero (P P' P'' : PJ) :
  PJ_PROJECTION_laea P = PJ_ok P' -> lifetime P' P'' ->
  exists Q, opaque P'' = Some Q /\
    (apa Q <> None <-> (es P =? 0) = false) /\
    ((es P =? 0) = true -> apa Q = None).
Proof.
  intros Hs Hl. apply lifetime_opaque in Hl.
  destruct (setup_ok_inv _ _ Hs) as (_ & _ & _ & _ & _ & Q & HQ & _ & H).
  exists Q. split; [congruence |].
  destruct (es P =? 0).
  - destruct H as (Ha & _). rewrite Ha. repeat split; congruence.
  - destruct H as (_ & Ha & _). repeat split; auto; discriminate.
Qed.

End Invariants.

(** The theorem on the north-polar ellipsoid, after a forward call that
    fails at the south pole. *)
Lemma apa_nonnull_iff_es_nonzero_witness :
  exists Q,
    opaque (proj_errno_set Sample.north_polar_ellipsoid OUTSIDE) = Some Q /\
    (apa Q <> None <-> (Sample.es_ell =? 0) = false) /\
    ((Sample.es_ell =? 0) = true -> apa Q = None).
Proof.
  apply (@apa_nonnull_iff_es_nonzero Sample.libm Sample.helper
           (Sample.PJ_new M_HALFPI Sample.es_ell Sample.n_ell)
           Sample.north_polar_ellipsoid).
  - vm_compute. reflexivity.
  - eapply lifetime_call; [apply lifetime_start |].
    apply (call_e_forward (mkLP 0 (- M_HALFPI)) origin).
    vm_compute. reflexivity.
Defined.

(** ** Setup: the range check and the aspect mode *)

Section Setup.

Context {L : Libm} {C : Collaborators}.

(** Setup returns an instance when the state block is allocated, the centre
    latitude is in range and, for an ellipsoid, the coefficients are
    allocated. *)
Lemma setup_succeeds (P : PJ) :
  calloc_succeeds = true -> out_of_range (phi0 P) = false ->
  ((es P =? 0) = false -> pj_authalic_lat_compute_coeffs (n P) <> None) ->
  exists P', PJ_PROJECTION_laea P = PJ_ok P'.
Proof.
  unfold PJ_PROJECTION_laea, out_of_range. intros -> Hr Hc.
  cbn [negb phi0 es n apa set_destructor set_opaque set_e set_apa].
  rewrite Hr.
  destruct (es P =? 0); cbn [negb]; [eauto |].
  destruct (pj_authalic_lat_compute_coeffs (n P)); [eauto |].
  now destruct Hc.
Qed.

(** C6, as the code has it: the state block is allocated before the centre
    latitude is looked at.  When that allocation succeeds, every [phi0] with
    |phi0| > 90 degrees + epsilon makes setup fail with the illegal-argument
    error; whether it succeeds or not, such a [phi0] gives no instance; and
    for |phi0| <= 90 degrees + epsilon setup never ends in that error. *)
Theorem setup_range_check (P : PJ) :
  (out_of_range (phi0 P) = true ->
     (forall P', PJ_PROJECTION_laea P <> PJ_ok P') /\
     PJ_PROJECTION_laea P =
       PJ_null (Some (if calloc_succeeds
                      then PROJ_ERR_INVALID_OP_ILLEGAL_ARG_VALUE
                      else PROJ_ERR_OTHER))) /\
  (out_of_range (phi0 P) = false ->
     PJ_PROJECTION_laea P <>
       PJ_null (Some PROJ_ERR_INVALID_OP_ILLEGAL_ARG_VALUE)).
Proof.
  unfold PJ_PROJECTION_laea, out_of_range. split; intros Hr.
  - destruct calloc_succeeds;
      cbn [negb phi0 set_destructor set_opaque pj_default_destructor];
      rewrite ?Hr; cbn; split; try reflexivity; discriminate.
  - destruct calloc_succeeds; cbn [negb]; [| discriminate].
    cbn [negb phi0 es n apa set_destructor set_opaque set_e set_apa].
    rewrite Hr.
    destruct (es P =? 0); cbn [negb]; [discriminate |].
    destruct (pj_authalic_lat_compute_coeffs (n P)); discriminate.
Qed.

(** C5: the aspect mode is a function of the centre latitude alone.  On
    every instance setup constructs, and after any sequence of transform
    calls on it, the stored mode is the one the spec's classification gives
    for [phi0]: North-Polar for [phi0] within 1e-10 of +90 degrees,
    South-Polar within 1e-10 of -90 degrees, Equatorial for |phi0| < 1e-10,
    and Oblique for every other [phi0] setup accepts. *)
Theorem mode_is_a_function_of_phi0 (P P' P'' : PJ) :
  PJ_PROJECTION_laea P = PJ_ok P' -> lifetime P' P'' ->
  exists Q, opaque P'' = Some Q /\ mode Q = spec_mode (phi0 P) /\
    (near (phi0 P) M_HALFPI = true -> mode Q = N_POLE) /\
    (near (phi0 P) (- M_HALFPI) = true -> mode Q = S_POLE) /\
    ((abs (phi0 P) <? EPS10) = true -> mode Q = EQUIT) /\
    (near (phi0 P) M_HALFPI = false -> near (phi0 P) (- M_HALFPI) = false ->
     (abs (phi0 P) <? EPS10) = false -> mode Q = OBLIQ).
Proof.
  intros Hs Hl. apply lifetime_opaque in Hl.
  destruct (setup_ok_inv _ _ Hs) as (_ & _ & _ & _ & _ & Q & HQ & Hm & _).
  exists Q. split; [congruence |]. split; [assumption |].
  rewrite Hm. apply spec_mode_cases.
Qed.

End Setup.

(** Setup at 100 degrees: illegal argument when the state block is allocated. *)
Lemma setup_range_check_witness :
  Sample.setup Sample.helper 1.7453292519943295 0 0 =
    PJ_null (Some PROJ_ERR_INVALID_OP_ILLEGAL_ARG_VALUE).
Proof.
  exact (proj2 (proj1 (@setup_range_check Sample.libm Sample.helper
                         (Sample.PJ_new 1.7453292519943295 0 0)) eq_refl)).
Defined.

(** C6 as stated fails when [calloc] returns no block: setup at 100 degrees
    then ends in the allocation error, not in the illegal-argument one. *)
Lemma setup_range_check_counterexample :
  out_of_range 1.7453292519943295 = true /\
  Sample.setup Sample.helper_no_memory 1.7453292519943295 0 0 =
    PJ_null (Some PROJ_ERR_OTHER) /\
  Sample.setup Sample.helper_no_memory 1.7453292519943295 0 0 <>
    PJ_null (Some PROJ_ERR_INVALID_OP_ILLEGAL_ARG_VALUE).
Proof.
  repeat split; try reflexivity. vm_compute. discriminate.
Qed.

(** The four centre latitudes of the spec: 90, -90, 0 and 45 degrees. *)
Lemma spec_mode_examples :
  spec_mode M_HALFPI = N_POLE /\ spec_mode (- M_HALFPI) = S_POLE /\
  spec_mode 0 = EQUIT /\ spec_mode M_FORTPI = OBLIQ.
Proof. repeat split; reflexivity. Qed.

(** The sphere centred on the north pole, after a forward call that fails
    at the south pole: the mode is still North-Polar. *)
Lemma mode_is_a_function_of_phi0_witness :
  exists Q,
    opaque (proj_errno_set Sample.north_polar_sphere OUTSIDE) = Some Q /\
    mode Q = N_POLE.
Proof.
  destruct (@mode_is_a_function_of_phi0 Sample.libm Sample.helper
              (Sample.PJ_new M_HALFPI 0 0) Sample.north_polar_sphere
              (proj_errno_set Sample.north_polar_sphere OUTSIDE))
    as (Q & HQ & _ & HN & _).
  - vm_compute. reflexivity.
  - eapply lifetime_call; [apply lifetime_start |].
    apply (call_bound_fwd (mkLP 0 (- M_HALFPI)) origin).
    vm_compute. reflexivity.
  - exists Q. split; [exact HQ | apply HN; vm_compute; reflexivity].
Defined.

(** ** Domain failures of the transforms *)

Section Domain.

Context {L : Libm} {C : Collaborators}.

(** C7: in a polar mode the spherical forward transform raises "outside
    projection domain" when |lat + phi0| < epsilon, and returns without
    touching the error slot on every other input. *)
Theorem s_forward_polar_guard (lp : PJ_LP) (P : PJ) (Q : pj_laea_data) :
  opaque P = Some Q -> mode Q = N_POLE \/ mode Q = S_POLE ->
  exists xy P', laea_s_forward lp P = Some (xy, P') /\
    ((abs (phi lp + phi0 P) <? EPS10) = true ->
       P' = proj_errno_set P OUTSIDE /\ outside_domain P') /\
    ((abs (phi lp + phi0 P) <? EPS10) = false -> P' = P).
Proof.
  intros HQ Hm. unfold laea_s_forward. rewrite HQ.
  destruct Hm as [-> | ->]; cbn -[sin cos];
    destruct (abs (phi lp + phi0 P) <? EPS10); do 2 eexists;
    (split; [reflexivity |]); split; intros; try discriminate; auto;
    split; reflexivity.
Qed.

(** C3, as the code has it: the ellipsoidal forward transform tests
    |b| < epsilon in every mode.  In the polar modes [b] is 90 degrees + lat
    (North) and lat - 90 degrees (South), so the failure is raised there too,
    at the pole opposite to the centre; in every mode the call fails exactly
    when |b| < epsilon, and then returns the zero pair. *)
Theorem e_forward_guard_all_modes (lp : PJ_LP) (P : PJ) (Q : pj_laea_data) :
  opaque P = Some Q ->
  let xi := pj_authalic_lat (phi lp) (sin (phi lp)) (cos (phi lp))
                            (apa Q) (ellps P) (qp Q) in
  let b := match mode Q with
           | OBLIQ => 1 + sinb1 Q * sin xi + cosb1 Q * cos xi * cos (lam lp)
           | EQUIT => 1 + cos xi * cos (lam lp)
           | N_POLE => M_HALFPI + phi lp
           | S_POLE => phi lp - M_HALFPI
           end in
  exists xy P', laea_e_forward lp P = Some (xy, P') /\
    ((abs b <? EPS10) = true ->
       xy = origin /\ P' = proj_errno_set P OUTSIDE /\ outside_domain P') /\
    ((abs b <? EPS10) = false -> P' = P).
Proof.
  intros HQ xi b. unfold laea_e_forward, laea_e_forward_b. rewrite HQ.
  subst b xi.
  destruct (mode Q); cbn -[pj_authalic_lat sin cos];
    match goal with |- context [abs ?b <? EPS10] => destruct (abs b <? EPS10) end;
    try match goal with |- context [if ?c then _ else _] => destruct c end;
    do 2 eexists; (split; [reflexivity |]); split; intros; try discriminate;
    auto; repeat split; reflexivity.
Qed.

(** C2, as the code has it: which pair comes back with "outside projection
    domain".  The ellipsoidal transforms and the spherical forward transform
    in a polar mode fail before they write to the result, which is the zero
    pair.  The spherical forward transform in Equatorial and Oblique mode has
    stored the guard quantity in [xy.y] and returns [(0, y)] with
    [y <= epsilon]; the spherical inverse has stored half the radius in
    [lp.phi] and returns [(0, rh / 2)] with [rh / 2 > 1]. *)
Theorem pair_returned_on_domain_error
    (lp : PJ_LP) (xy : PJ_XY) (P : PJ) (Q : pj_laea_data) :
  opaque P = Some Q -> last_errno P = None ->
  (forall out P', laea_e_forward lp P = Some (out, P') ->
     outside_domain P' -> out = origin) /\
  (forall out P', laea_e_inverse xy P = Some (out, P') ->
     outside_domain P' -> out = zero_lp) /\
  (forall out P', laea_s_forward lp P = Some (out, P') ->
     outside_domain P' ->
     match mode Q with
     | N_POLE | S_POLE => out = origin
     | EQUIT =>
       out = mkXY 0 (1 + cos (phi lp) * cos (lam lp)) /\ (y out <=? EPS10) = true
     | OBLIQ =>
       out = mkXY 0 (1 + sinb1 Q * sin (phi lp) +
                     cosb1 Q * cos (phi lp) * cos (lam lp)) /\
       (y out <=? EPS10) = true
     end) /\
  (forall out P', laea_s_inverse xy P = Some (out, P') ->
     outside_domain P' ->
     out = mkLP 0 (hypot (x xy) (y xy) * 0.5) /\ (1 <? phi out) = true).
Proof.
  intros HQ He. unfold outside_domain.
  assert (Hno : forall P', P' = P -> last_errno P' <> Some OUTSIDE)
    by (intros P' ->; rewrite He; discriminate).
  split; [| split; [| split]].
  - unfold laea_e_forward. rewrite HQ.
    destruct (laea_e_forward_b _ _ _ _ _ _) as [b q].
    destruct (abs b <? EPS10); [now intros out P' [= <- _] |].
    destruct (mode Q); try destruct (1e-15 <=? q);
      intros out P' [= _ <-] Hs; now apply Hno in Hs.
  - unfold laea_e_inverse. rewrite HQ.
    destruct (mode Q); cbn -[hypot asin atan2 sin cos pj_authalic_lat_inverse];
      repeat match goal with |- context [if ?c then _ else _] => destruct c end;
      intros out P' [= <- <-] Hs; try reflexivity; now apply Hno in Hs.
  - unfold laea_s_forward. rewrite HQ.
    destruct (mode Q); cbn -[sin cos];
      match goal with |- context [if ?c then _ else _] => destruct c eqn:Hc end;
      intros out P' [= <- <-] Hs; try reflexivity; try (now apply Hno in Hs);
      split; auto.
  - unfold laea_s_inverse. rewrite HQ. cbn -[hypot asin atan2 sin cos].
    destruct (1 <? hypot (x xy) (y xy) * 0.5) eqn:Hc.
    + intros out P' [= <- <-] Hs. split; auto.
    + destruct (mode Q); intros out P' [= <- <-] Hs; now apply Hno in Hs.
Qed.

End Domain.

(** The north-polar sphere at the south pole: the domain error is raised. *)
Lemma s_forward_polar_guard_witness :
  exists xy P',
    @laea_s_forward Sample.libm (mkLP 0.3 (- M_HALFPI)) Sample.north_polar_sphere
      = Some (xy, P') /\
    outside_domain P'.
Proof.
  destruct (@s_forward_polar_guard Sample.libm (mkLP 0.3 (- M_HALFPI))
              Sample.north_polar_sphere (Sample.sphere_data N_POLE 0 0)
              eq_refl (or_introl eq_refl)) as (xy & P' & H & Ht & _).
  exists xy, P'. split; [exact H | apply Ht; reflexivity].
Defined.

(** The north-polar ellipsoid at the south pole: [b = 0], the call fails. *)
Lemma e_forward_guard_all_modes_witness :
  exists xy P',
    @laea_e_forward Sample.libm Sample.helper (mkLP 0.3 (- M_HALFPI))
      Sample.north_polar_ellipsoid = Some (xy, P') /\
    xy = origin /\ outside_domain P'.
Proof.
  destruct (@e_forward_guard_all_modes Sample.libm Sample.helper
              (mkLP 0.3 (- M_HALFPI)) Sample.north_polar_ellipsoid
              Sample.north_polar_data eq_refl) as (xy & P' & H & Ht & _).
  exists xy, P'. split; [exact H |].
  destruct (Ht eq_refl) as (Hxy & _ & Hs). split; assumption.
Defined.

(** C3 as stated fails in North-Polar mode: on the instance setup builds
    for [phi0 = 90 degrees] on an ellipsoid, the ellipsoidal forward
    transform at [lat = -90 degrees] raises the |b| < epsilon failure. *)
Lemma e_forward_polar_counterexample :
  Sample.setup Sample.helper M_HALFPI Sample.es_ell Sample.n_ell
    = PJ_ok Sample.north_polar_ellipsoid /\
  mode Sample.north_polar_data = N_POLE /\
  (abs (M_HALFPI + - M_HALFPI) <? EPS10) = true /\
  outcome (@laea_e_forward Sample.libm Sample.helper (mkLP 0 (- M_HALFPI))
             Sample.north_polar_ellipsoid)
    = Some (origin, Some OUTSIDE).
Proof.
  repeat split; vm_compute; reflexivity.
Qed.

(** The spherical inverse transform at the planar pair (3, 4), beyond the
    radius 2 of the projection: it returns (0, 2.5). *)
Lemma pair_returned_on_domain_error_witness :
  mkLP 0 2.5 = mkLP 0 (Sample.sample_hypot 3 4 * 0.5) /\ (1 <? 2.5) = true.
Proof.
  refine (proj2 (proj2 (proj2
    (@pair_returned_on_domain_error Sample.libm Sample.helper
       (mkLP 0 0) (mkXY 3 4) Sample.oblique_sphere
       (Sample.sphere_data OBLIQ (Sample.sample_sin 0.5) (Sample.sample_cos 0.5))
       eq_refl eq_refl)))
    (mkLP 0 2.5) (proj_errno_set Sample.oblique_sphere OUTSIDE) _ eq_refl).
  vm_compute. reflexivity.
Defined.

(** C2 as stated fails in the spherical inverse transform: at the planar
    pair (3, 4), whose radius is 5, the call signals "outside projection
    domain" and returns the pair (0, 2.5), not the zero pair. *)
Lemma zero_pair_counterexample :
  Sample.setup Sample.helper 0.5 0 0 = PJ_ok Sample.oblique_sphere /\
  last_errno Sample.oblique_sphere = None /\
  @laea_s_inverse Sample.libm (mkXY 3 4) Sample.oblique_sphere
    = Some (mkLP 0 2.5, proj_errno_set Sample.oblique_sphere OUTSIDE) /\
  outside_domain (proj_errno_set Sample.oblique_sphere OUTSIDE) /\
  mkLP 0 2.5 <> zero_lp.
Proof.
  repeat split; try (vm_compute; reflexivity).
  intros H. apply (f_equal phi) in H. revert H. now apply float_neq.
Qed.

(** ** Symmetry and the centre point *)

Section Symmetry.

Context {L : Libm} {C : Collaborators}.

(** C9: on a spherical Equatorial instance, for every input on which the
    forward transform does not fail, the transform of [(-lon, lat)] has the
    same [y] and the negated [x].  The two facts of <math.h> used are that
    cosine is even and sine is odd at [lon]. *)
Theorem s_forward_equit_symmetry
    (lp : PJ_LP) (P P' : PJ) (Q : pj_laea_data) (xy : PJ_XY) :
  opaque P = Some Q -> mode Q = EQUIT -> last_errno P = None ->
  cos (- lam lp) = cos (lam lp) -> sin (- lam lp) = - sin (lam lp) ->
  laea_s_forward lp P = Some (xy, P') -> last_errno P' = None ->
  exists xy', laea_s_forward (mkLP (- lam lp) (phi lp)) P = Some (xy', P') /\
    y xy' = y xy /\ x xy' = - x xy.
Proof.
  intros HQ Hm He Hcos Hsin. unfold laea_s_forward. rewrite HQ, Hm.
  cbn -[sin cos]. rewrite Hcos, Hsin.
  destruct (1 + cos (phi lp) * cos (lam lp) <=? EPS10).
  - intros [= _ <-]. discriminate.
  - intros [= <- <-] _. eexists. split; [reflexivity |].
    cbn -[sin cos]. split; [reflexivity | apply mul_opp_r].
Qed.

(** C4, as the code has it: the inverse transform at the planar pair (0, 0)
    in Equatorial or Oblique mode.  The ellipsoidal transform returns
    [(0, phi0)] exactly (for a finite nonzero [dd], and a [hypot] that is
    zero at zeros).  So does the spherical transform in Oblique mode; in
    Equatorial mode it returns the latitude 0, which is [phi0] only when
    [phi0] is 0 (in that mode |phi0| < 1e-10). *)
Theorem inverse_at_origin (P : PJ) (Q : pj_laea_data) :
  opaque P = Some Q -> mode Q = EQUIT \/ mode Q = OBLIQ ->
  (is_finite (dd Q) = true -> is_zero (dd Q) = false ->
   (forall a b, is_zero a = true -> is_zero b = true ->
                is_zero (hypot a b) = true) ->
   laea_e_inverse origin P = Some (mkLP 0 (phi0 P), P)) /\
  (hypot 0 0 = 0 ->
   is_finite (match mode Q with
              | EQUIT => cos (2 * asin 0)
              | _ => cos (2 * asin 0) - sin (phi0 P) * sinb1 Q
              end) = true ->
   laea_s_inverse origin P =
     Some (mkLP 0 (match mode Q with EQUIT => 0 | _ => phi0 P end), P)).
Proof.
  intros HQ Hm. split.
  - intros Hf Hnz Hh. unfold laea_e_inverse. rewrite HQ.
    assert (Hr : (hypot (0 / dd Q) (0 * dd Q) <? EPS10) = true).
    { apply zero_below_EPS10, Hh.
      - now apply div_zero_finite.
      - now apply mul_zero_finite. }
    destruct Hm as [-> | ->]; cbn -[hypot asin atan2 sin cos];
      now rewrite Hr.
  - intros Hh Hf. unfold laea_s_inverse. rewrite HQ.
    destruct Hm as [Hm | Hm]; rewrite Hm in *;
      cbn -[hypot asin atan2 sin cos]; rewrite Hh;
      cbn -[hypot asin atan2 sin cos].
    + assert (Hy : (cos (2 * asin 0) * 0 =? 0) = true)
        by now apply (mul_finite_zero _ 0).
      now rewrite Hy.
    + assert (Hy : ((cos (2 * asin 0) - sin (phi0 P) * sinb1 Q) * 0 =? 0) = true)
        by now apply (mul_finite_zero _ 0).
      now rewrite Hy.
Qed.

End Symmetry.

(** The sample [hypot] is zero at zeros. *)
Lemma sample_hypot_zero (a b : float) :
  is_zero a = true -> is_zero b = true ->
  is_zero (Sample.sample_hypot a b) = true.
Proof.
  intros Ha Hb. apply is_zero_spec in Ha, Hb.
  destruct Ha as [sa Ha], Hb as [sb Hb]. apply is_zero_spec.
  unfold Sample.sample_hypot.
  rewrite sqrt_spec, add_spec, !mul_spec, Ha, Hb.
  exists false. now destruct sa, sb.
Qed.

(** The equatorial sphere at (0.3, 0.4) and at (-0.3, 0.4). *)
Lemma s_forward_equit_symmetry_witness :
  exists xy xy',
    @laea_s_forward Sample.libm (mkLP 0.3 0.4) Sample.equatorial_sphere
      = Some (xy, Sample.equatorial_sphere) /\
    @laea_s_forward Sample.libm (mkLP (- 0.3) 0.4) Sample.equatorial_sphere
      = Some (xy', Sample.equatorial_sphere) /\
    y xy' = y xy /\ x xy' = - x xy.
Proof.
  eexists.
  destruct (@s_forward_equit_symmetry Sample.libm (mkLP 0.3 0.4)
              Sample.equatorial_sphere Sample.equatorial_sphere
              (Sample.sphere_data EQUIT 0 0) _
              eq_refl eq_refl eq_refl eq_refl eq_refl eq_refl eq_refl)
    as (xy' & H & Hy & Hx).
  exists xy'. split; [reflexivity |]. split; [exact H |]. split; assumption.
Defined.

(** The ellipsoid and the sphere centred on the latitude 5e-11 rad, both in
    Equatorial mode: the ellipsoidal inverse returns [phi0] at the origin,
    the spherical inverse returns 0. *)
Lemma inverse_at_origin_witness :
  @laea_e_inverse Sample.libm Sample.helper origin Sample.near_equatorial_ellipsoid
    = Some (mkLP 0 5e-11, Sample.near_equatorial_ellipsoid) /\
  @laea_s_inverse Sample.libm origin Sample.near_equatorial_sphere
    = Some (mkLP 0 0, Sample.near_equatorial_sphere).
Proof.
  split.
  - exact (proj1 (@inverse_at_origin Sample.libm Sample.helper
                    Sample.near_equatorial_ellipsoid Sample.equatorial_data
                    eq_refl (or_introl eq_refl))
             eq_refl eq_refl sample_hypot_zero).
  - exact (proj2 (@inverse_at_origin Sample.libm Sample.helper
                    Sample.near_equatorial_sphere (Sample.sphere_data EQUIT 0 0)
                    eq_refl (or_introl eq_refl))
             eq_refl eq_refl).
Defined.

(** C4 as stated fails on a sphere in Equatorial mode whose centre latitude
    is not exactly 0: setup with [phi0 = 5e-11] gives Equatorial mode, and
    the spherical inverse transform at (0, 0) returns the latitude 0, which
    is not [phi0]. *)
Lemma inverse_at_origin_counterexample :
  Sample.setup Sample.helper 5e-11 0 0 = PJ_ok Sample.near_equatorial_sphere /\
  phi0 Sample.near_equatorial_sphere = 5e-11 /\
  outcome (@call_inv Sample.libm Sample.helper origin Sample.near_equatorial_sphere)
    = Some (mkLP 0 0, None) /\
  mkLP 0 0 <> mkLP 0 (phi0 Sample.near_equatorial_sphere).
Proof.
  repeat split; try (vm_compute; reflexivity).
  intros H. apply (f_equal phi) in H. symmetry in H. revert H.
  now apply float_neq.
Qed.

(** * Further properties of the code *)

(** ** More facts of binary64 arithmetic *)

Section MoreFloatFacts.


Lemma SFmul_opp_l (s t : spec_float) :
  SF64mul (SFopp s) t = SFopp (SF64mul s t).
Proof.
  destruct s as [ss | ss | | ss ms ks], t as [st | st | | st mt kt]; cbn;
    try reflexivity; try (now destruct ss, st).
  rewrite <- binary_round_aux_negb. f_equal. now destruct ss, st.
Qed.

(** [(-a) * b] is [-(a * b)], bit for bit. *)
Lemma mul_opp_l (a b : float) : (- a) * b = - (a * b).
Proof.
  apply Prim2SF_inj. rewrite opp_spec, !mul_spec, opp_spec. apply SFmul_opp_l.
Qed.

Lemma SFcompare_finite_refl (s : bool) (m : positive) (k : Z) :
  SFcompare (S754_finite s m k) (S754_finite s m k) = Some Eq.
Proof.
  cbn. rewrite Z.compare_refl, Pos.compare_cont_refl.
  now destruct s.
Qed.

Lemma is_nan_spec (a : float) : is_nan a = true -> Prim2SF a = S754_nan.
Proof.
  unfold is_nan. rewrite eqb_spec. unfold SFeqb.
  destruct (Prim2SF a) as [s | s | | s m k] eqn:E; try reflexivity.
  - discriminate.
  - now destruct s.
  - now rewrite SFcompare_finite_refl.
Qed.

(** A comparison with a NaN operand of the sum or difference is false. *)
Lemma nan_sum_not_below (a b c : float) :
  is_nan a = true ->
  (abs (a + b) <? c) = false /\ (abs (b + a) <? c) = false /\
  (abs (a - b) <? c) = false.
Proof.
  intros H. apply is_nan_spec in H.
  rewrite !ltb_spec, !abs_spec, !add_spec, sub_spec, H.
  now destruct (Prim2SF b).
Qed.

End MoreFloatFacts.

(** ** The instance across transform calls *)

Section Calls.

Context {L : Libm} {C : Collaborators}.

Lemma lifetime_frame (P P' : PJ) :
  lifetime P P' ->
  same_but_errno P P' /\
  (last_errno P' = last_errno P \/ last_errno P' = Some OUTSIDE).
Proof.
  induction 1 as [P | P P' P'' _ IH Hc].
  - unfold same_but_errno. repeat split; auto.
  - destruct IH as [Hs He]. apply call_frame in Hc.
    destruct Hc as [-> | ->]; [now split |].
    split; [| now right].
    unfold same_but_errno in *. cbn. exact Hs.
Qed.

(** Whatever transforms are called on an instance, and however often, the
    instance stays as it was but for the error slot; the slot holds what it
    held or "outside projection domain"; an error it holds is never
    cleared. *)
Theorem calls_touch_the_error_slot_only (P P' : PJ) :
  lifetime P P' ->
  same_but_errno P P' /\
  (last_errno P' = last_errno P \/ last_errno P' = Some OUTSIDE) /\
  (last_errno P <> None -> last_errno P' <> None).
Proof.
  intros H. destruct (lifetime_frame P P' H) as [Hs He].
  repeat split; try apply Hs; [exact He |].
  intros Hn. destruct He as [-> | ->]; [assumption | discriminate].
Qed.

End Calls.

(** Two calls on the north-polar sphere: a forward call that fails at the
    south pole, then an inverse call that succeeds; the error stays. *)
Lemma calls_touch_the_error_slot_only_witness :
  last_errno (proj_errno_set Sample.north_polar_sphere OUTSIDE) = None \/
  last_errno (proj_errno_set Sample.north_polar_sphere OUTSIDE) = Some OUTSIDE.
Proof.
  refine (proj1 (proj2 (@calls_touch_the_error_slot_only Sample.libm Sample.helper
            Sample.north_polar_sphere
            (proj_errno_set Sample.north_polar_sphere OUTSIDE) _))).
  eapply lifetime_call.
  - eapply lifetime_call; [apply lifetime_start |].
    apply (call_bound_fwd (mkLP 0 (- M_HALFPI)) origin).
    vm_compute. reflexivity.
  - apply (call_s_inverse (mkXY 1 0) (mkLP (Sample.sample_atan2 1 (- 0))
                                           (M_HALFPI - 2 * Sample.sample_asin 0.5))).
    vm_compute. reflexivity.
Defined.

(** ** Every way setup ends *)

Section SetupOutcome.

Context {L : Libm} {C : Collaborators}.

(** Setup ends in one of four ways, tested in this order: the allocation
    error when [calloc] fails; the illegal-argument error for a centre
    latitude out of range; the allocation error when the ellipsoid has
    [es != 0] and the coefficients cannot be allocated; an instance
    otherwise.  It never returns [nullptr] without an error recorded. *)
Theorem setup_outcome (P : PJ) :
  ((exists P', PJ_PROJECTION_laea P = PJ_ok P') <->
     calloc_succeeds = true /\ out_of_range (phi0 P) = false /\
     ((es P =? 0) = false -> pj_authalic_lat_compute_coeffs (n P) <> None)) /\
  (calloc_succeeds = false -> PJ_PROJECTION_laea P = PJ_null (Some PROJ_ERR_OTHER)) /\
  (calloc_succeeds = true -> out_of_range (phi0 P) = false ->
   (es P =? 0) = false -> pj_authalic_lat_compute_coeffs (n P) = None ->
   PJ_PROJECTION_laea P = PJ_null (Some PROJ_ERR_OTHER)) /\
  PJ_PROJECTION_laea P <> PJ_null None.
Proof.
  split; [split |].
  - intros [P' H]. destruct (setup_ok_inv P P' H) as (Hc & Hr & _ & _ & _ & Q & _ & _ & Hb).
    repeat split; auto. intros He. rewrite He in Hb.
    destruct Hb as (<- & Hn & _). exact Hn.
  - intros (Hc & Hr & Hn). now apply setup_succeeds.
  - unfold PJ_PROJECTION_laea, out_of_range.
    destruct calloc_succeeds;
      cbn [negb phi0 es n apa set_destructor set_opaque set_e set_apa];
      [destruct (M_HALFPI + EPS10 <? abs (phi0 P));
       [| destruct (es P =? 0); cbn [negb];
          [| destruct (pj_authalic_lat_compute_coeffs (n P)) eqn:E]] |];
      (split; [| split]); intros; try discriminate; try reflexivity.
Qed.

End SetupOutcome.

(** An ellipsoid whose coefficients cannot be allocated: no instance. *)
Lemma setup_outcome_witness :
  @PJ_PROJECTION_laea Sample.libm sample_helper_no_coefficients
     (Sample.PJ_new 0.5 Sample.es_ell Sample.n_ell)
    = PJ_null (Some PROJ_ERR_OTHER).
Proof.
  exact (proj1 (proj2 (proj2 (@setup_outcome Sample.libm sample_helper_no_coefficients
            (Sample.PJ_new 0.5 Sample.es_ell Sample.n_ell))))
         eq_refl eq_refl eq_refl eq_refl).
Defined.

(** ** What setup hands to the caller *)

Section Built.

Context {L : Libm} {C : Collaborators}.

(** The parameters after a successful setup. *)
Lemma setup_parameters (P P' : PJ) :
  PJ_PROJECTION_laea P = PJ_ok P' ->
  phi0 P' = phi0 P /\ es P' = es P /\ n P' = n P /\
  last_errno P' = last_errno P /\ has_destructor P' = true /\
  e P' = (if es P =? 0 then e P else sqrt (es P)).
Proof.
  unfold PJ_PROJECTION_laea.
  destruct calloc_succeeds; [| discriminate].
  cbn [negb phi0 es n apa set_destructor set_opaque set_e set_apa].
  destruct (M_HALFPI + EPS10 <? abs (phi0 P)); [discriminate |].
  destruct (es P =? 0); cbn [negb].
  - intros H. injection H as H. subst P'. repeat split.
  - destruct (pj_authalic_lat_compute_coeffs (n P)); [| discriminate].
    intros H. injection H as H. subst P'. repeat split.
Qed.

(** Setup writes the eccentricity [e = sqrt(es)] of an ellipsoid into [P]
    and registers the destructor; it changes neither the centre latitude,
    nor [es], nor [n], nor the error slot, and it leaves [e] alone on a
    sphere. *)
Theorem setup_keeps_the_parameters (P P' : PJ) :
  PJ_PROJECTION_laea P = PJ_ok P' ->
  phi0 P' = phi0 P /\ es P' = es P /\ n P' = n P /\
  last_errno P' = last_errno P /\ has_destructor P' = true /\
  ((es P =? 0) = true -> e P' = e P) /\
  ((es P =? 0) = false -> e P' = sqrt (es P)).
Proof.
  intros H. destruct (setup_parameters P P' H) as (H1 & H2 & H3 & H4 & H5 & H6).
  repeat split; auto; intros E; now rewrite E in H6.
Qed.

(** An instance setup has built can be called through its bound pointers,
    at any time of its life and on any input: the pointers are set and the
    state block is there, so the call returns.  The pair bound is the
    spherical one for [es = 0] and the ellipsoidal one otherwise, and never
    a mix of the two. *)
Theorem built_instance_is_callable
    (P P' P'' : PJ) (lp : PJ_LP) (xy : PJ_XY) :
  PJ_PROJECTION_laea P = PJ_ok P' -> lifetime P' P'' ->
  call_fwd lp P'' =
    (if es P =? 0 then laea_s_forward lp P'' else laea_e_forward lp P'') /\
  call_inv xy P'' =
    (if es P =? 0 then laea_s_inverse xy P'' else laea_e_inverse xy P'') /\
  (exists out P3, call_fwd lp P'' = Some (out, P3)) /\
  (exists out P3, call_inv xy P'' = Some (out, P3)).
Proof.
  intros Hs Hl.
  destruct (lifetime_frame P' P'' Hl) as [(_ & _ & _ & _ & Ho & _ & Hf & Hi) _].
  destruct (setup_ok_inv P P' Hs) as (_ & _ & _ & _ & _ & Q & HQ & _ & Hb).
  rewrite HQ in Ho. unfold call_fwd, call_inv. rewrite Hf, Hi.
  destruct (es P =? 0).
  - destruct Hb as (_ & -> & ->). repeat split; auto.
    + now apply (laea_s_forward_total lp P'' Q).
    + now apply (laea_s_inverse_total xy P'' Q).
  - destruct Hb as (_ & _ & -> & ->). repeat split; auto.
    + now apply (laea_e_forward_total lp P'' Q).
    + now apply (laea_e_inverse_total xy P'' Q).
Qed.

End Built.

(** Setup of the north-polar ellipsoid from a fresh [PJ]. *)
Lemma setup_keeps_the_parameters_witness :
  e Sample.north_polar_ellipsoid = sqrt Sample.es_ell.
Proof.
  refine (proj2 (proj2 (proj2 (proj2 (proj2 (proj2
    (@setup_keeps_the_parameters Sample.libm Sample.helper
       (Sample.PJ_new M_HALFPI Sample.es_ell Sample.n_ell)
       Sample.north_polar_ellipsoid _)))))) eq_refl).
  vm_compute. reflexivity.
Defined.

(** The oblique sphere, called through its pointers at (0.3, 0.4). *)
Lemma built_instance_is_callable_witness :
  exists out P3,
    @call_fwd Sample.libm Sample.helper (mkLP 0.3 0.4) Sample.oblique_sphere
      = Some (out, P3).
Proof.
  refine (proj1 (proj2 (proj2
    (@built_instance_is_callable Sample.libm Sample.helper
       (Sample.PJ_new 0.5 0 0) Sample.oblique_sphere Sample.oblique_sphere
       (mkLP 0.3 0.4) (mkXY 0.1 0.2) _ _)))).
  - vm_compute. reflexivity.
  - apply lifetime_start.
Defined.

(** ** The two hemispheres *)

Section Hemispheres.

Context {L : Libm} {C : Collaborators}.




End Hemispheres.


(** ** The domain guards that remain *)

Section Guards.

Context {L : Libm} {C : Collaborators}.

(** The ellipsoidal inverse transform never fails in a polar mode: whatever
    the planar pair, it returns with the instance untouched.  In Equatorial
    and Oblique mode it fails exactly when the scaled radius [rho] is not
    below epsilon and [.5 * rho / rq] exceeds 1, and then returns the zero
    pair. *)
Theorem e_inverse_guard (xy : PJ_XY) (P : PJ) (Q : pj_laea_data) :
  opaque P = Some Q ->
  let rho := hypot (x xy / dd Q) (y xy * dd Q) in
  exists lp P', laea_e_inverse xy P = Some (lp, P') /\
    match mode Q with
    | N_POLE | S_POLE => P' = P
    | EQUIT | OBLIQ =>
      ((rho <? EPS10) = false -> (1 <? 0.5 * rho / rq Q) = true ->
         lp = zero_lp /\ P' = proj_errno_set P OUTSIDE) /\
      ((rho <? EPS10) = true \/ (1 <? 0.5 * rho / rq Q) = false -> P' = P)
    end.
Proof.
  intros HQ rho. subst rho. unfold laea_e_inverse. rewrite HQ.
  destruct (mode Q); cbn -[hypot asin atan2 sin cos pj_authalic_lat_inverse];
    repeat match goal with |- context [if ?c then _ else _] => destruct c end;
    do 2 eexists; (split; [reflexivity |]); try reflexivity;
    (split; [intros; try discriminate; auto
            | intros [? | ?]; try discriminate; auto]).
Qed.

(** The spherical inverse transform fails, in every mode alike, exactly when
    half the radius [hypot(x, y)] compares greater than 1; a radius that
    does not (a NaN among them) is let through with the instance
    untouched. *)
Theorem s_inverse_guard (xy : PJ_XY) (P : PJ) (Q : pj_laea_data) :
  opaque P = Some Q ->
  exists lp P', laea_s_inverse xy P = Some (lp, P') /\
    ((1 <? hypot (x xy) (y xy) * 0.5) = true -> P' = proj_errno_set P OUTSIDE) /\
    ((1 <? hypot (x xy) (y xy) * 0.5) = false -> P' = P).
Proof.
  intros HQ. unfold laea_s_inverse. rewrite HQ.
  cbn -[hypot asin atan2 sin cos].
  destruct (1 <? hypot (x xy) (y xy) * 0.5).
  - do 2 eexists. split; [reflexivity |]. split; [auto | discriminate].
  - destruct (mode Q); do 2 eexists; (split; [reflexivity |]);
      (split; [discriminate | auto]).
Qed.

(** The spherical forward transform in Equatorial and Oblique mode fails
    exactly when the guard quantity, 1 + cos(lat) cos(lam) resp.
    1 + sinb1 sin(lat) + cosb1 cos(lat) cos(lam), is at most epsilon; the
    test is [<=], where the ellipsoidal transform tests [|b| <]. *)
Theorem s_forward_oblique_guard (lp : PJ_LP) (P : PJ) (Q : pj_laea_data) :
  opaque P = Some Q -> mode Q = EQUIT \/ mode Q = OBLIQ ->
  let g := match mode Q with
           | EQUIT => 1 + cos (phi lp) * cos (lam lp)
           | _ => 1 + sinb1 Q * sin (phi lp) + cosb1 Q * cos (phi lp) * cos (lam lp)
           end in
  exists xy P', laea_s_forward lp P = Some (xy, P') /\
    ((g <=? EPS10) = true -> P' = proj_errno_set P OUTSIDE) /\
    ((g <=? EPS10) = false -> P' = P).
Proof.
  intros HQ Hm g. subst g. unfold laea_s_forward. rewrite HQ.
  destruct Hm as [-> | ->]; cbn -[sin cos];
    match goal with |- context [if ?c then _ else _] => destruct c end;
    do 2 eexists; (split; [reflexivity |]); split; intros; try discriminate; auto.
Qed.

(** A NaN latitude passes the guards of both forward transforms in a polar
    mode: no error is raised and the instance is untouched. *)
Theorem polar_forward_lets_nan_through (lp : PJ_LP) (P : PJ) (Q : pj_laea_data) :
  opaque P = Some Q -> mode Q = N_POLE \/ mode Q = S_POLE ->
  is_nan (phi lp) = true ->
  (exists xy, laea_e_forward lp P = Some (xy, P)) /\
  (exists xy, laea_s_forward lp P = Some (xy, P)).
Proof.
  intros HQ Hm Hn.
  destruct (nan_sum_not_below (phi lp) M_HALFPI EPS10 Hn) as (_ & H1 & H2).
  destruct (nan_sum_not_below (phi lp) (phi0 P) EPS10 Hn) as (H3 & _ & _).
  unfold laea_e_forward, laea_e_forward_b, laea_s_forward. rewrite HQ.
  destruct Hm as [-> | ->];
    cbn -[pj_authalic_lat sin cos M_HALFPI M_FORTPI EPS10];
    rewrite ?H1, ?H2, ?H3; split; eauto;
    match goal with |- context [if ?c then _ else _] => destruct c end; eauto.
Qed.

(** The inverse transforms at the planar pair (0, 0) in a polar mode.  The
    ellipsoidal one returns [(0, phi0)] exactly.  The spherical one returns
    the latitude of the pole itself, +-M_HALFPI and not [phi0], and the
    longitude [atan2(0, -0)] (North) resp. [atan2(0, 0)] (South); it needs
    [hypot(0, 0) = 0] and [asin(0) = 0] of the C library. *)
Theorem polar_inverse_at_origin (P : PJ) (Q : pj_laea_data) :
  opaque P = Some Q -> mode Q = N_POLE \/ mode Q = S_POLE ->
  laea_e_inverse origin P = Some (mkLP 0 (phi0 P), P) /\
  (hypot 0 0 = 0 -> asin 0 = 0 ->
   laea_s_inverse origin P =
     Some (match mode Q with
           | N_POLE => mkLP (atan2 0 (- 0)) M_HALFPI
           | _ => mkLP (atan2 0 0) (- M_HALFPI)
           end, P)).
Proof.
  intros HQ Hm. unfold laea_e_inverse, laea_s_inverse. rewrite HQ.
  destruct Hm as [-> | ->]; (split; [reflexivity |]); intros Hh Ha;
    cbn -[hypot asin atan2 sin cos]; rewrite Hh;
    cbn -[hypot asin atan2 sin cos]; rewrite Ha; reflexivity.
Qed.

End Guards.

(** The ellipsoidal inverse on the north-polar ellipsoid, far outside the
    image of the projection: no error. *)
Lemma e_inverse_guard_witness :
  exists lp P',
    @laea_e_inverse Sample.libm Sample.helper (mkXY 30 40) Sample.north_polar_ellipsoid
      = Some (lp, P') /\ P' = Sample.north_polar_ellipsoid.
Proof.
  exact (@e_inverse_guard Sample.libm Sample.helper (mkXY 30 40)
           Sample.north_polar_ellipsoid Sample.north_polar_data eq_refl).
Defined.

(** The spherical inverse on the north-polar sphere at radius 5: an error. *)
Lemma s_inverse_guard_witness :
  exists lp P',
    @laea_s_inverse Sample.libm (mkXY 3 4) Sample.north_polar_sphere = Some (lp, P') /\
    P' = proj_errno_set Sample.north_polar_sphere OUTSIDE.
Proof.
  destruct (@s_inverse_guard Sample.libm (mkXY 3 4)
              Sample.north_polar_sphere (Sample.sphere_data N_POLE 0 0) eq_refl)
    as (lp & P' & H & Ht & _).
  exists lp, P'. split; [exact H | apply Ht; vm_compute; reflexivity].
Defined.

(** The equatorial sphere at (0.3, 0.4): the guard quantity is about 1.88,
    no error. *)
Lemma s_forward_oblique_guard_witness :
  exists xy P',
    @laea_s_forward Sample.libm (mkLP 0.3 0.4) Sample.equatorial_sphere = Some (xy, P') /\
    P' = Sample.equatorial_sphere.
Proof.
  destruct (@s_forward_oblique_guard Sample.libm (mkLP 0.3 0.4)
              Sample.equatorial_sphere (Sample.sphere_data EQUIT 0 0)
              eq_refl (or_introl eq_refl))
    as (xy & P' & H & _ & Hf).
  exists xy, P'. split; [exact H | apply Hf; vm_compute; reflexivity].
Defined.

(** The north-polar sphere and ellipsoid at a NaN latitude. *)
Lemma polar_forward_lets_nan_through_witness :
  (exists xy, @laea_e_forward Sample.libm Sample.helper (mkLP 0.3 nan)
                Sample.north_polar_ellipsoid
              = Some (xy, Sample.north_polar_ellipsoid)) /\
  (exists xy, @laea_s_forward Sample.libm (mkLP 0.3 nan) Sample.north_polar_sphere
              = Some (xy, Sample.north_polar_sphere)).
Proof.
  split.
  - exact (proj1 (@polar_forward_lets_nan_through Sample.libm Sample.helper
                    (mkLP 0.3 nan) Sample.north_polar_ellipsoid
                    Sample.north_polar_data eq_refl (or_introl eq_refl) eq_refl)).
  - exact (proj2 (@polar_forward_lets_nan_through Sample.libm Sample.helper
                    (mkLP 0.3 nan) Sample.north_polar_sphere
                    (Sample.sphere_data N_POLE 0 0) eq_refl (or_introl eq_refl)
                    eq_refl)).
Defined.

(** The south-polar sphere at the origin: the latitude -M_HALFPI. *)
Lemma polar_inverse_at_origin_witness :
  @laea_s_inverse Sample.libm origin sample_south_polar_sphere
    = Some (mkLP (Sample.sample_atan2 0 0) (- M_HALFPI), sample_south_polar_sphere).
Proof.
  exact (proj2 (@polar_inverse_at_origin Sample.libm Sample.helper
                  sample_south_polar_sphere (Sample.sphere_data S_POLE 0 0)
                  eq_refl (or_intror eq_refl)) eq_refl eq_refl).
Defined.

(** ** Mirror symmetries of the forward transforms *)

Section Mirror.

Context {L : Libm} {C : Collaborators}.

(** In every mode the spherical forward transform maps the pair mirrored in
    the central meridian, [(-lon, lat)], to the planar pair mirrored in the
    y axis, [(-x, y)], bit for bit, on every input on which it does not
    fail.  The two facts of <math.h> used are that cosine is even and sine
    is odd at [lon]. *)
Theorem s_forward_mirror
    (lp : PJ_LP) (P P' : PJ) (Q : pj_laea_data) (xy : PJ_XY) :
  opaque P = Some Q -> last_errno P = None ->
  cos (- lam lp) = cos (lam lp) -> sin (- lam lp) = - sin (lam lp) ->
  laea_s_forward lp P = Some (xy, P') -> last_errno P' = None ->
  laea_s_forward (mirror_lon lp) P = Some (mirror_x xy, P').
Proof.
  intros HQ He Hcos Hsin. unfold laea_s_forward, mirror_lon, mirror_x.
  rewrite HQ. cbn [lam phi]. rewrite Hcos, Hsin.
  destruct (mode Q); cbn -[sin cos M_HALFPI M_FORTPI EPS10];
    match goal with |- context [if ?c then _ else _] => destruct c end;
    intros H; injection H as <- <-; cbn -[sin cos M_HALFPI M_FORTPI EPS10];
    try discriminate; intros _; unfold set_x, set_y; cbn [x y];
    now rewrite mul_opp_r.
Qed.

(** The same for the ellipsoidal forward transform: [y] is the same number
    and [x] is negated bit for bit; only where a polar mode returns the pair
    [(0., 0.)] for a point at the centre are both [x] the [0.] assigned. *)
Theorem e_forward_mirror
    (lp : PJ_LP) (P P' : PJ) (Q : pj_laea_data) (xy : PJ_XY) :
  opaque P = Some Q -> last_errno P = None ->
  cos (- lam lp) = cos (lam lp) -> sin (- lam lp) = - sin (lam lp) ->
  laea_e_forward lp P = Some (xy, P') -> last_errno P' = None ->
  exists xy', laea_e_forward (mirror_lon lp) P = Some (xy', P') /\
    y xy' = y xy /\ negated (x xy) (x xy').
Proof.
  intros HQ He Hcos Hsin.
  unfold laea_e_forward, laea_e_forward_b, mirror_lon, negated.
  rewrite HQ. cbn [lam phi]. rewrite Hcos, Hsin.
  destruct (mode Q); cbn -[pj_authalic_lat sin cos M_HALFPI M_FORTPI EPS10];
    repeat match goal with |- context [if ?c then _ else _] => destruct c end;
    intros H; injection H as <- <-; cbn -[pj_authalic_lat sin cos M_HALFPI M_FORTPI EPS10];
    try discriminate; intros _; eexists; (split; [reflexivity |]);
    unfold set_x, set_y; cbn [x y];
    (split; [reflexivity |]); rewrite ?mul_opp_r; auto.
Qed.

(** On a sphere in Equatorial mode the forward transform also maps the pair
    mirrored in the equator, [(lon, -lat)], to the planar pair mirrored in
    the x axis, [(x, -y)], bit for bit; cosine is to be even and sine odd at
    [lat]. *)
Theorem s_forward_equit_mirror_lat
    (lp : PJ_LP) (P P' : PJ) (Q : pj_laea_data) (xy : PJ_XY) :
  opaque P = Some Q -> mode Q = EQUIT -> last_errno P = None ->
  cos (- phi lp) = cos (phi lp) -> sin (- phi lp) = - sin (phi lp) ->
  laea_s_forward lp P = Some (xy, P') -> last_errno P' = None ->
  laea_s_forward (mirror_lat lp) P = Some (mkXY (x xy) (- y xy), P').
Proof.
  intros HQ Hm He Hcos Hsin. unfold laea_s_forward, mirror_lat.
  rewrite HQ, Hm. cbn [lam phi]. rewrite Hcos, Hsin.
  cbn -[sin cos M_HALFPI M_FORTPI EPS10].
  destruct (1 + cos (phi lp) * cos (lam lp) <=? EPS10).
  - intros H; injection H as <- <-. discriminate.
  - intros H; injection H as <- <-. intros _.
    unfold set_x, set_y; cbn [x y]. now rewrite mul_opp_r.
Qed.

End Mirror.

(** The north-polar sphere at (0.3, 0.4) and at (-0.3, 0.4). *)
Lemma s_forward_mirror_witness :
  exists xy,
    @laea_s_forward Sample.libm (mkLP 0.3 0.4) Sample.north_polar_sphere
      = Some (xy, Sample.north_polar_sphere) /\
    @laea_s_forward Sample.libm (mkLP (- 0.3) 0.4) Sample.north_polar_sphere
      = Some (mirror_x xy, Sample.north_polar_sphere).
Proof.
  eexists.
  pose proof (@s_forward_mirror Sample.libm (mkLP 0.3 0.4)
                Sample.north_polar_sphere Sample.north_polar_sphere
                (Sample.sphere_data N_POLE 0 0) _
                eq_refl eq_refl eq_refl eq_refl eq_refl eq_refl) as H.
  split; [reflexivity | exact H].
Defined.

(** The north-polar ellipsoid at (0.3, 0.4) and at (-0.3, 0.4). *)
Lemma e_forward_mirror_witness :
  exists xy xy',
    @laea_e_forward Sample.libm Sample.helper (mkLP 0.3 0.4)
      Sample.north_polar_ellipsoid = Some (xy, Sample.north_polar_ellipsoid) /\
    @laea_e_forward Sample.libm Sample.helper (mkLP (- 0.3) 0.4)
      Sample.north_polar_ellipsoid = Some (xy', Sample.north_polar_ellipsoid) /\
    y xy' = y xy /\ negated (x xy) (x xy').
Proof.
  eexists.
  destruct (@e_forward_mirror Sample.libm Sample.helper (mkLP 0.3 0.4)
              Sample.north_polar_ellipsoid Sample.north_polar_ellipsoid
              Sample.north_polar_data _
              eq_refl eq_refl eq_refl eq_refl eq_refl eq_refl)
    as (xy' & H & Hy & Hx).
  exists xy'. split; [reflexivity |]. split; [exact H |]. split; assumption.
Defined.

(** The equatorial sphere at (0.3, 0.4) and at (0.3, -0.4). *)
Lemma s_forward_equit_mirror_lat_witness :
  exists xy,
    @laea_s_forward Sample.libm (mkLP 0.3 0.4) Sample.equatorial_sphere
      = Some (xy, Sample.equatorial_sphere) /\
    @laea_s_forward Sample.libm (mkLP 0.3 (- 0.4)) Sample.equatorial_sphere
      = Some (mkXY (x xy) (- y xy), Sample.equatorial_sphere).
Proof.
  eexists.
  pose proof (@s_forward_equit_mirror_lat Sample.libm (mkLP 0.3 0.4)
                Sample.equatorial_sphere Sample.equatorial_sphere
                (Sample.sphere_data EQUIT 0 0) _
                eq_refl eq_refl eq_refl eq_refl eq_refl eq_refl eq_refl) as H.
  split; [reflexivity | exact H].
Defined.

(** ** What the transforms read of the instance *)

Section Reads.

Context {L : Libm} {C : Collaborators}.

(** The spherical transforms read the state block and [phi0] and nothing
    else of the instance; the ellipsoidal ones read in addition the
    ellipsoid ([es], [e], [n]), which they hand to the authalic helper.
    Two instances that agree on these return the same pair and raise the
    error alike, whatever their error slots and bound pointers hold. *)
Theorem transforms_read_state_and_ellipsoid
    (P1 P2 : PJ) (lp : PJ_LP) (xy : PJ_XY) :
  opaque P1 = opaque P2 -> phi0 P1 = phi0 P2 ->
  same_result P1 P2 (laea_s_forward lp P1) (laea_s_forward lp P2) /\
  same_result P1 P2 (laea_s_inverse xy P1) (laea_s_inverse xy P2) /\
  (ellps P1 = ellps P2 ->
   same_result P1 P2 (laea_e_forward lp P1) (laea_e_forward lp P2) /\
   same_result P1 P2 (laea_e_inverse xy P1) (laea_e_inverse xy P2)).
Proof.
  intros Ho Hp. unfold same_result.
  split; [| split; [| intros He; split]].
  - unfold laea_s_forward. rewrite <- Ho, <- Hp.
    destruct (opaque P1) as [Q |]; [| exact I].
    destruct (mode Q); cbn -[sin cos M_HALFPI M_FORTPI EPS10];
      match goal with |- context [if ?c then _ else _] => destruct c end; auto.
  - unfold laea_s_inverse. rewrite <- Ho, <- Hp.
    destruct (opaque P1) as [Q |]; [| exact I].
    cbn -[hypot asin atan2 sin cos M_HALFPI M_FORTPI EPS10].
    destruct (1 <? _); [auto |]. destruct (mode Q); auto.
  - unfold laea_e_forward, laea_e_forward_b. rewrite <- Ho, <- He.
    destruct (opaque P1) as [Q |]; [| exact I].
    destruct (mode Q); cbn -[pj_authalic_lat sin cos M_HALFPI M_FORTPI EPS10];
      repeat match goal with |- context [if ?c then _ else _] => destruct c end;
      auto.
  - unfold laea_e_inverse. rewrite <- Ho, <- Hp, <- He.
    destruct (opaque P1) as [Q |]; [| exact I].
    destruct (mode Q);
      cbn -[hypot asin atan2 sin cos pj_authalic_lat_inverse M_HALFPI M_FORTPI EPS10];
      repeat match goal with |- context [if ?c then _ else _] => destruct c end;
      auto.
Qed.

End Reads.

(** The oblique sphere with a stale error in its slot, against the same
    sphere with a clear slot. *)
Lemma transforms_read_state_and_ellipsoid_witness :
  same_result Sample.oblique_sphere (proj_errno_set Sample.oblique_sphere PROJ_ERR_OTHER)
    (@laea_s_forward Sample.libm (mkLP 0.3 0.4) Sample.oblique_sphere)
    (@laea_s_forward Sample.libm (mkLP 0.3 0.4)
       (proj_errno_set Sample.oblique_sphere PROJ_ERR_OTHER)).
Proof.
  exact (proj1 (@transforms_read_state_and_ellipsoid Sample.libm Sample.helper
                  Sample.oblique_sphere
                  (proj_errno_set Sample.oblique_sphere PROJ_ERR_OTHER)
                  (mkLP 0.3 0.4) (mkXY 0.1 0.2) eq_refl eq_refl)).
Defined.

(** ** Mirror symmetry of the inverse transforms *)

Section MirrorFacts.

Lemma opp_involutive (a : float) : - - a = a.
Proof.
  apply Prim2SF_inj. rewrite !opp_spec.
  destruct (Prim2SF a) as [s | s | | s m k]; cbn; now rewrite ?negb_involutive.
Qed.

Lemma SFdiv_opp_l (s t : spec_float) :
  SF64div (SFopp s) t = SFopp (SF64div s t).
Proof.
  destruct s as [ss | ss | | ss ms ks], t as [st | st | | st mt kt]; cbn;
    try reflexivity; try (now destruct ss, st).
  destruct (SFdiv_core_binary prec emax (Z.pos ms) ks (Z.pos mt) kt) as [[mz kz] lz].
  rewrite <- binary_round_aux_negb. f_equal. now destruct ss, st.
Qed.

(** [(-a) / b] is [-(a / b)], bit for bit. *)
Lemma div_opp_l (a b : float) : (- a) / b = - (a / b).
Proof.
  apply Prim2SF_inj. rewrite opp_spec, !div_spec, opp_spec. apply SFdiv_opp_l.
Qed.

Lemma mul_opp_opp (a b : float) : (- a) * (- b) = a * b.
Proof. now rewrite mul_opp_l, mul_opp_r, opp_involutive. Qed.

Lemma ltb_opp_zero (b : float) :
  (- b <? 0) = (0 <? b) /\ (0 <? - b) = (b <? 0).
Proof.
  rewrite !ltb_spec, opp_spec, Prim2SF_zero.
  destruct (Prim2SF b) as [[|] | [|] | | [|] m k]; split; reflexivity.
Qed.

Lemma sample_hypot_even (a b : float) :
  Sample.sample_hypot (- a) b = Sample.sample_hypot a b.
Proof. unfold Sample.sample_hypot. now rewrite mul_opp_opp. Qed.

Lemma sample_odd_atan2_odd (b a : float) :
  sample_odd_atan2 (- b) a = - sample_odd_atan2 b a.
Proof.
  unfold sample_odd_atan2.
  destruct (ltb_opp_zero b) as [-> ->].
  destruct (b <? 0) eqn:Hn, (0 <? b) eqn:Hp; rewrite ?opp_involutive; try reflexivity.
  exfalso. rewrite ltb_spec, Prim2SF_zero in Hn, Hp.
  destruct (Prim2SF b) as [[|] | [|] | | [|] m k]; discriminate.
Qed.

End MirrorFacts.

Section MirrorInverse.

Context {L : Libm} {C : Collaborators}.

Hypothesis hypot_even : forall a b, hypot (- a) b = hypot a b.
Hypothesis atan2_odd : forall a b, atan2 (- a) b = - atan2 a b.

(** In every mode the spherical inverse transform maps the planar pair
    mirrored in the y axis, [(-x, y)], to the same latitude and the negated
    longitude, bit for bit, on every input on which it does not fail; where
    the code assigns the longitude [0.] (Equatorial and Oblique mode, on
    the central meridian) both longitudes are that [0.].  The C library is
    to have [hypot] even and [atan2] odd in the first argument. *)
Theorem s_inverse_mirror
    (xy : PJ_XY) (P P' : PJ) (Q : pj_laea_data) (lp : PJ_LP) :
  opaque P = Some Q -> last_errno P = None ->
  laea_s_inverse xy P = Some (lp, P') -> last_errno P' = None ->
  exists lp', laea_s_inverse (mirror_x xy) P = Some (lp', P') /\
    phi lp' = phi lp /\ negated (lam lp) (lam lp').
Proof.
  intros HQ He. unfold laea_s_inverse, mirror_x, negated. rewrite HQ.
  cbn [x y]. rewrite hypot_even.
  cbn -[hypot asin atan2 sin cos M_HALFPI M_FORTPI EPS10].
  destruct (1 <? _); [intros H; injection H as <- <-; discriminate |].
  destruct (mode Q);
    cbn -[hypot asin atan2 sin cos M_HALFPI M_FORTPI EPS10];
    repeat match goal with |- context [if ?c then _ else _] => destruct c end;
    intros H; injection H as <- <-; intros _; eexists;
    (split; [reflexivity |]); unfold set_lam, set_phi; cbn [lam phi];
    (split; [reflexivity |]); rewrite ?mul_opp_l, ?atan2_odd; auto.
Qed.

(** The same for the ellipsoidal inverse transform; the longitude [0.] is
    the one it returns at the centre point. *)
Theorem e_inverse_mirror
    (xy : PJ_XY) (P P' : PJ) (Q : pj_laea_data) (lp : PJ_LP) :
  opaque P = Some Q -> last_errno P = None ->
  laea_e_inverse xy P = Some (lp, P') -> last_errno P' = None ->
  exists lp', laea_e_inverse (mirror_x xy) P = Some (lp', P') /\
    phi lp' = phi lp /\ negated (lam lp) (lam lp').
Proof.
  intros HQ He. unfold laea_e_inverse, mirror_x, negated. rewrite HQ.
  cbn [x y].
  destruct (mode Q);
    cbn -[hypot asin atan2 sin cos pj_authalic_lat_inverse M_HALFPI M_FORTPI EPS10];
    rewrite ?div_opp_l, ?hypot_even, ?mul_opp_opp;
    repeat match goal with |- context [if ?c then _ else _] => destruct c end;
    intros H; injection H as <- <-; try discriminate; intros _; eexists;
    (split; [reflexivity |]); unfold set_lam, set_phi; cbn [lam phi];
    (split; [reflexivity |]); rewrite ?mul_opp_l, ?atan2_odd; auto.
Qed.

End MirrorInverse.

(** The oblique sphere at the planar pairs (0.1, 0.2) and (-0.1, 0.2). *)
Lemma s_inverse_mirror_witness :
  exists lp lp',
    @laea_s_inverse sample_libm_odd (mkXY 0.1 0.2) Sample.oblique_sphere
      = Some (lp, Sample.oblique_sphere) /\
    @laea_s_inverse sample_libm_odd (mkXY (- 0.1) 0.2) Sample.oblique_sphere
      = Some (lp', Sample.oblique_sphere) /\
    phi lp' = phi lp /\ negated (lam lp) (lam lp').
Proof.
  eexists.
  destruct (@s_inverse_mirror sample_libm_odd sample_hypot_even sample_odd_atan2_odd
              (mkXY 0.1 0.2) Sample.oblique_sphere Sample.oblique_sphere
              (Sample.sphere_data OBLIQ (Sample.sample_sin 0.5) (Sample.sample_cos 0.5))
              _ eq_refl eq_refl eq_refl eq_refl)
    as (lp' & H & Hp & Hl).
  exists lp'. split; [reflexivity |]. split; [exact H |]. split; assumption.
Defined.

(** The north-polar ellipsoid at the planar pairs (0.1, 0.2) and (-0.1, 0.2). *)
Lemma e_inverse_mirror_witness :
  exists lp lp',
    @laea_e_inverse sample_libm_odd Sample.helper (mkXY 0.1 0.2)
      Sample.north_polar_ellipsoid = Some (lp, Sample.north_polar_ellipsoid) /\
    @laea_e_inverse sample_libm_odd Sample.helper (mkXY (- 0.1) 0.2)
      Sample.north_polar_ellipsoid = Some (lp', Sample.north_polar_ellipsoid) /\
    phi lp' = phi lp /\ negated (lam lp) (lam lp').
Proof.
  eexists.
  destruct (@e_inverse_mirror sample_libm_odd Sample.helper
              sample_hypot_even sample_odd_atan2_odd
              (mkXY 0.1 0.2) Sample.north_polar_ellipsoid Sample.north_polar_ellipsoid
              Sample.north_polar_data _ eq_refl eq_refl eq_refl eq_refl)
    as (lp' & H & Hp & Hl).
  exists lp'. split; [reflexivity |]. split; [exact H |]. split; assumption.
Defined.
